(** * datashuttle: subject / session numbering and name checks

    A shallow embedding of the name-processing core of datashuttle
    ([datashuttle/utils/getters.py], [datashuttle/utils/utils.py],
    [datashuttle/datashuttle.py]) and the properties its specification
    states about it.

    Python strings are [string], Python [int] is [Z], a raised exception
    is a value of [exn] and [warnings.warn] appends to a log that is
    threaded through every call (the monad [M] below). *)

From Stdlib Require Import ZArith Ascii String List DecimalString.
From stdpp Require Import base list strings sorting gmap.

Local Open Scope string_scope.
Local Open Scope Z_scope.

(** * The embedding *)

(** ** Exceptions, warnings and the monad of the embedding *)

Inductive exn : Type :=
  | BaseException (message : string)
  | NeuroBlueprintError (message : string)
  | NameFormattingError (message : string)
  | AssertionError (message : string)
  | IndexError
  | ValueError.

(** A computation logs the warnings it emits and then either raises or
    returns. Warnings emitted before a raise are kept. *)
Definition M (A : Type) : Type := (list string * (exn + A))%type.

Definition ret {A} (a : A) : M A := ([], inr a).
Definition raise {A} (e : exn) : M A := ([], inl e).
Definition warn (message : string) : M unit := ([message], inr tt).

Definition bind {A B} (m : M A) (f : A → M B) : M B :=
  match m with
  | (w, inl e) => (w, inl e)
  | (w, inr a) => let '(w', r) := f a in ((w ++ w')%list, r)
  end.

Notation "'let*' x ':=' m 'in' k" := (bind m (λ x, k))
  (at level 10, x name, m at level 100, k at level 200,
   format "'let*'  x  :=  m  'in'  '/' k").
Notation "'do' m 'then' k" := (bind m (λ _, k))
  (at level 10, m at level 100, k at level 200,
   format "'do'  m  'then'  '/' k").

Definition warnings_of {A} (m : M A) : list string := fst m.
Definition outcome {A} (m : M A) : exn + A := snd m.

(** [[f(x) for x in xs]] where [f] may raise: the first failure wins. *)
Fixpoint list_comp {A B} (f : A → M B) (xs : list A) : M (list B) :=
  match xs with
  | [] => ret []
  | x :: xs' => let* y := f x in let* ys := list_comp f xs' in ret (y :: ys)
  end.

(** ** Python string primitives *)

(** [str(n)] for an [int]. *)
Definition str (n : Z) : string := NilZero.string_of_int (Z.to_int n).

(** [repr] of a list of [int], as an f-string prints it: [[1, 2, 4]]. *)
Fixpoint join (sep : string) (l : list string) : string :=
  match l with
  | [] => ""
  | [x] => x
  | x :: l' => x +:+ sep +:+ join sep l'
  end.

Definition repr_int_list (l : list Z) : string :=
  "[" +:+ join ", " (map str l) +:+ "]".

(** [s.zfill(width)]: left-pad with "0" up to [width]; a leading sign
    stays in front; a string already that long is returned as it is. *)
Fixpoint zeros (n : nat) : string :=
  match n with
  | O => ""
  | S n' => String "0" (zeros n')
  end.

Definition is_sign (c : ascii) : bool :=
  (Ascii.eqb c "+" || Ascii.eqb c "-")%bool.

Definition zfill (width : Z) (s : string) : string :=
  let fill := Z.to_nat (width - Z.of_nat (String.length s)) in
  match fill, s with
  | O, _ => s
  | _, String c rest =>
      if is_sign c then String c (zeros fill +:+ rest) else zeros fill +:+ s
  | _, EmptyString => zeros fill
  end.

(** [re.split] on a pattern that matches single characters: cut at every
    such character; the result is never empty and keeps empty pieces. *)
Fixpoint split_by (is_cut : ascii → bool) (s : string) : list string :=
  match s with
  | EmptyString => [""]
  | String c rest =>
      if is_cut c then "" :: split_by is_cut rest
      else match split_by is_cut rest with
           | [] => [String c ""]
           | piece :: pieces => String c piece :: pieces
           end
  end.

(** [re.split("-|_", name)]. *)
Definition is_delim (c : ascii) : bool :=
  (Ascii.eqb c "-" || Ascii.eqb c "_")%bool.

Definition re_split (name : string) : list string := split_by is_delim name.

(** ** datashuttle/utils/utils.py *)

(** [raise_error]: "Temporary centralized way to raise and error". *)
Definition raise_error {A} (message : string) : M A :=
  raise (BaseException message).

(** [re.split("-|_", name)[0]]. *)
Definition first_piece (name : string) : string :=
  match re_split name with
  | piece :: _ => piece
  | [] => ""
  end.

(** [re.split("-|_", name)[1]]: a one-piece name has no such index. *)
Definition second_piece (name : string) : M string :=
  match re_split name with
  | _ :: piece :: _ => ret piece
  | _ => raise IndexError
  end.

(** The second piece of a name, when it has one. *)
Definition piece2 (name : string) : option string :=
  match re_split name with
  | _ :: piece :: _ => Some piece
  | _ => None
  end.

(** [get_first_sub_ses_keys]: the second piece of every name whose first
    piece is "sub" or "ses". *)
Definition get_first_sub_ses_keys (all_names : list string) : M (list string) :=
  list_comp second_piece
    (filter (λ name, first_piece name = "sub" ∨ first_piece name = "ses")
            all_names).

(** The level of a name: [Literal["sub", "ses"]]. *)
Inductive Prefix : Type := sub_level | ses_level.

Definition prefix_str (prefix : Prefix) : string :=
  match prefix with
  | sub_level => "sub"
  | ses_level => "ses"
  end.

(** Modelled from the spec: [utils.get_values_from_bids_formatted_name]
    is called by getters.py but is not among the sources. Spec 4.4 step
    1: "Extract the prefix-token value string from every name in the
    NameSet (ignore names that don't start with the expected prefix)".
    Names are cut into pieces as the sibling [get_first_sub_ses_keys]
    cuts them, and the value is the piece after the prefix. *)
Definition get_values_from_bids_formatted_name
    (all_names : list string) (prefix : Prefix) : M (list string) :=
  list_comp second_piece
    (filter (λ name, first_piece name = prefix_str prefix) all_names).

(** Modelled from the spec: [utils.sub_or_ses_value_to_int] is not among
    the sources. Spec 4.4 step 4: "Parse all values to integers". A
    value that is not a non-empty string of decimal digits does not
    parse. *)
Definition sub_or_ses_value_to_int (value : string) : M Z :=
  match NilZero.uint_of_string value with
  | Some d => ret (Z.of_uint d)
  | None => raise ValueError
  end.

(** Modelled from the spec: [utils.integers_are_consecutive] is not
    among the sources. Spec 4.4 step 4: the sorted numbers are "a
    consecutive run" when each one is its predecessor plus one. *)
Fixpoint integers_are_consecutive (nums : list Z) : bool :=
  match nums with
  | x :: (y :: _) as rest => (y - x =? 1) && integers_are_consecutive rest
  | _ => true
  end.

(** ** Python list primitives used by getters.py *)

(** [l[0]]. *)
Definition index0 {A} (l : list A) : M A :=
  match l with
  | x :: _ => ret x
  | [] => raise IndexError
  end.

(** [max(l)] on a list of [int]. *)
Definition py_max (l : list Z) : M Z :=
  match l with
  | x :: l' => ret (fold_left Z.max l' x)
  | [] => raise ValueError
  end.

(** [len(set(l))]. *)
Definition len_set (l : list Z) : nat := size (list_to_set l : gset Z).

(** [list(set(l))]: the elements of [l], each once, in an order Python
    does not promise. Every order is admitted. *)
Class PySet := {
  list_of_set : list string → list string;
  list_of_set_NoDup : ∀ l, NoDup (list_of_set l);
  elem_of_list_of_set : ∀ l x, x ∈ list_of_set l ↔ x ∈ l
}.

(** One such order: the list with repeated names dropped. *)
#[export] Program Instance remove_dups_PySet : PySet :=
  {| list_of_set := remove_dups |}.
Next Obligation. apply NoDup_remove_dups. Qed.
Next Obligation. intros. apply elem_of_remove_dups. Qed.

(** ** datashuttle/utils/getters.py *)

Definition inconsistent_digits_message (prefix : Prefix) : string :=
  "The number of value digits for the " +:+ prefix_str prefix +:+
  " level are not consistent. Cannot suggest a " +:+ prefix_str prefix +:+
  " number.".

Definition skipped_number_message (all_value_nums : list Z) : string :=
  "A subject number has been skipped, currently used subject numbers are: "
  +:+ repr_int_list all_value_nums.

Definition get_max_sub_or_ses_num_and_value_length
    (all_folders : list string) (prefix : Prefix)
    (default_num_value_digits : option Z) : M (Z * Z) :=
  if (length all_folders =? 0)%nat then
    let max_existing_num := 0 in
    match default_num_value_digits with
    | Some num_value_digits => ret (max_existing_num, num_value_digits)
    | None => raise (AssertionError "`default_num_value_digits` must be int`")
    end
  else
    let* all_values_str :=
      get_values_from_bids_formatted_name all_folders prefix in
    let all_num_value_digits :=
      map (λ value, Z.of_nat (String.length value)) all_values_str in
    do (if negb (len_set all_num_value_digits =? 1)%nat
        then raise_error (inconsistent_digits_message prefix)
        else ret tt) then
    let* num_value_digits := index0 all_num_value_digits in
    let* value_nums := list_comp sub_or_ses_value_to_int all_values_str in
    let all_value_nums := merge_sort Z.le value_nums in
    do (if negb (integers_are_consecutive all_value_nums)
        then warn (skipped_number_message all_value_nums)
        else ret tt) then
    let* max_existing_num := py_max all_value_nums in
    ret (max_existing_num, num_value_digits).

(** What [folders.search_project_for_sub_or_ses_names] hands back: the
    dict with the keys "local" and "central". *)
Record FolderNames := { local : list string; central : list string }.

(** Python truthiness of an [Optional[str]]. *)
Definition truthy (sub : option string) : bool :=
  match sub with
  | None | Some EmptyString => false
  | Some _ => true
  end.

Section Getters.
Context `{PySet}.

(** The project search is an outside collaborator (it lists folders on
    disk and over SSH); it is taken as given. *)
Context {Configs : Type}.
Variable search_project_for_sub_or_ses_names :
  Configs → option string → string → bool → FolderNames.

Definition get_next_sub_or_ses_number
    (cfg : Configs) (sub : option string) (search_str : string)
    (return_with_prefix : bool) (default_num_value_digits : Z) : M string :=
  let prefix := if truthy sub then ses_level else sub_level in
  let folder_names :=
    search_project_for_sub_or_ses_names cfg sub search_str false in
  let all_folders :=
    list_of_set (local folder_names ++ central folder_names) in
  let* found := get_max_sub_or_ses_num_and_value_length
                  all_folders prefix (Some default_num_value_digits) in
  let '(max_existing_num, num_value_digits) := found in
  let suggested_new_num := max_existing_num + 1 in
  let format_suggested_new_num :=
    zfill num_value_digits (str suggested_new_num) in
  ret (if return_with_prefix
       then prefix_str prefix +:+ "-" +:+ format_suggested_new_num
       else format_suggested_new_num).
End Getters.

(** * Name Validator, checks against the existing names *)

(** [for x in xs: f(x)]. *)
Fixpoint for_each {A} (f : A → M unit) (xs : list A) : M unit :=
  match xs with
  | [] => ret tt
  | x :: xs' => do f x then for_each f xs'
  end.

(** The two modes of the validator: raise on the first violation, or warn
    on every violation and go on. *)
Inductive Mode : Type := error_mode | warn_mode.

Definition report (mode : Mode) (message : string) : M unit :=
  match mode with
  | error_mode => raise (NeuroBlueprintError message)
  | warn_mode => warn message
  end.

(** The tokens of a name are its pieces between underscores. *)
Definition tokens (name : string) : list string :=
  split_by (λ c, Ascii.eqb c "_") name.

(** The value of the prefix token of a name of the level. *)
Definition level_value (prefix : Prefix) (name : string) : option string :=
  if decide (first_piece name = prefix_str prefix) then piece2 name else None.

(** Spec 4.3, duplicate entity: same prefix value, other token sequence. *)
Definition is_duplicate_entity (prefix : Prefix) (new existing : string)
    : Prop :=
  is_Some (level_value prefix new) ∧
  level_value prefix new = level_value prefix existing ∧
  tokens new ≠ tokens existing.

#[local] Instance is_duplicate_entity_dec prefix new existing :
  Decision (is_duplicate_entity prefix new existing).
Proof. unfold is_duplicate_entity. apply _. Defined.

(** The text the integration tests look for in the log
    (tests_integration/test_logging.py). *)
Definition duplicate_message (prefix : Prefix) (new existing : string)
    : string :=
  "A " +:+ prefix_str prefix +:+ " already exists with the same " +:+
  prefix_str prefix +:+ " id as " +:+ new +:+ ". The existing folder is " +:+
  existing.

Section Validator.
(** The spec does not word the digit-width report; its text is left open. *)
Variable width_message : Prefix → string → string.

Definition check_duplicate_entity (mode : Mode) (prefix : Prefix)
    (new existing : string) : M unit :=
  if decide (is_duplicate_entity prefix new existing)
  then report mode (duplicate_message prefix new existing)
  else ret tt.

(** Spec 4.3, digit-width consistency: the width of the new value against
    the widths found among the existing names. *)
Definition width_differs (prefix : Prefix) (existing_names : list string)
    (new : string) : bool :=
  match level_value prefix new with
  | Some value =>
      existsb (λ value', negb (String.length value =? String.length value')%nat)
              (omap (level_value prefix) existing_names)
  | None => false
  end.

Definition check_digit_width (mode : Mode) (prefix : Prefix)
    (existing_names : list string) (new : string) : M unit :=
  if width_differs prefix existing_names new
  then report mode (width_message prefix new)
  else ret tt.

Definition validate_name (mode : Mode) (prefix : Prefix)
    (existing_names : list string) (new : string) : M unit :=
  do for_each (check_duplicate_entity mode prefix new) existing_names then
  check_digit_width mode prefix existing_names new.

(** Modelled from the spec: [validate_names] (the check of new names
    against the project, which [make_folders] and the TUI call) is not
    among the sources. Spec 4.3 tier B and spec 6: every candidate is
    checked against the existing names of its level, first for a duplicate
    entity, then for its digit width; "error" raises a
    [NeuroBlueprintError] on the first violation, "warn" warns on every
    violation and proceeds. The check is free of side effects: the
    existing names are handed back as they were received. *)
Definition validate_names (candidate_names existing_names : list string)
    (level : Prefix) (mode : Mode) : M unit * list string :=
  (for_each (validate_name mode level existing_names) candidate_names,
   existing_names).
End Validator.

(** * Name Formatter *)

(** [s.strip()]. *)
Fixpoint lstrip (s : string) : string :=
  match s with
  | String c rest => if Ascii.is_space c then lstrip rest else s
  | EmptyString => ""
  end.

Definition strip (s : string) : string :=
  String.rev (lstrip (String.rev (lstrip s))).

(** [s[n:]]. *)
Fixpoint string_drop (n : nat) (s : string) : string :=
  match n, s with
  | S n', String _ rest => string_drop n' rest
  | _, _ => s
  end.

(** Some character of [s] satisfies [p]. *)
Fixpoint has_char (p : ascii → bool) (s : string) : bool :=
  match s with
  | String c rest => p c || has_char p rest
  | EmptyString => false
  end.

(** [s.partition(tag)] without the tag itself; [None] when [tag] does
    not occur. *)
Fixpoint split_at_tag (tag s : string) : option (string * string) :=
  if String.prefix tag s then Some ("", string_drop (String.length tag) s)
  else match s with
       | String c rest =>
           match split_at_tag tag rest with
           | Some (before, after) => Some (String c before, after)
           | None => None
           end
       | EmptyString => None
       end.

(** The part of [s] before its first underscore, and the part from that
    underscore on. *)
Fixpoint span_token (s : string) : string * string :=
  match s with
  | String c rest =>
      if Ascii.eqb c "_" then ("", s)
      else let '(token, others) := span_token rest in (String c token, others)
  | EmptyString => ("", "")
  end.

Definition is_comma (c : ascii) : bool := Ascii.eqb c ",".

(** The range-expansion tag of the token grammar. *)
Definition range_tag : string := "@TO@".

(** [range(lo, hi + 1)]. *)
Definition inclusive_range (lo hi : Z) : list Z :=
  map (λ k, lo + Z.of_nat k) (seq 0 (Z.to_nat (hi - lo + 1))).

(** Keep the first occurrence of every element. *)
Fixpoint dedup (l : list string) : list string :=
  match l with
  | [] => []
  | x :: l' => x :: filter (λ y, y ≠ x) (dedup l')
  end.

Section Formatter.
(** Given by the token grammar (spec 4.1) and by the structural tier of
    the validator (spec 4.3): the canonical prefix of a level ("sub-" and
    "ses-" unless configured otherwise), the substitution of the date,
    time and datetime tags by the clock, and the structural rule a name
    breaks, if it breaks one. *)
Variable canonical_prefix : Prefix → string.
Variable substitute_dynamic_tags : string → string.
Variable structure_violation : Prefix → string → option string.

(** Step 1: split at commas and trim. *)
Definition split_names (raw_input : list string) : list string :=
  flat_map (λ joined, map strip (split_by is_comma joined)) raw_input.

(** Step 2: substitute the dynamic tags, then put the prefix in front of
    a name that lacks it. *)
Definition add_prefix (prefix raw_name : string) : string :=
  let name := substitute_dynamic_tags raw_name in
  if String.prefix prefix name then name else prefix +:+ name.

(** Step 3: a range tag in the value of the prefix token stands for the
    inclusive run of numbers between its two ends, zero-filled to the
    longer of the two ends as written. *)
Definition expand_range (prefix name : string) : M (list string) :=
  let '(value, others) := span_token (string_drop (String.length prefix) name) in
  match split_at_tag range_tag value with
  | None => ret [name]
  | Some (first, last) =>
      match NilZero.uint_of_string first, NilZero.uint_of_string last with
      | Some lo, Some hi =>
          if Z.of_uint hi <? Z.of_uint lo
          then raise (NameFormattingError name)
          else
            let width := Z.max (Z.of_nat (String.length first))
                               (Z.of_nat (String.length last)) in
            ret (map (λ n, prefix +:+ zfill width (str n) +:+ others)
                     (inclusive_range (Z.of_uint lo) (Z.of_uint hi)))
      | _, _ => raise (NameFormattingError name)
      end
  end.

(** Step 3 over the whole list; every name stays paired with the raw
    name it came from. *)
Definition expand_all (prefix : string) (prefixed : list (string * string))
    : M (list (list (string * string))) :=
  list_comp (λ '(raw, name),
               let* names := expand_range prefix name in
               ret (map (pair raw) names))
            prefixed.

(** Step 4: the structural check of every name. *)
Definition check_structure (level : Prefix) (name : string) : M unit :=
  match structure_violation level name with
  | Some rule => raise (NeuroBlueprintError rule)
  | None => ret tt
  end.

(** Step 5: two different raw names that came out as the same name. *)
Definition same_name_from_different_raw (pairs : list (string * string))
    : bool :=
  existsb (λ '(raw, name),
             existsb (λ '(raw', name'),
                        bool_decide (name = name') && negb (bool_decide (raw = raw')))
                     pairs)
          pairs.

(** Modelled from the spec: [utils.process_names], which
    [DataShuttle._process_names] calls with the prefix of the level, is
    not among the sources. Spec 4.2, steps 1 to 5; a
    [NameFormattingError] carries the name it is about. *)
Definition format_names (raw_input : list string) (level : Prefix)
    : M (list string) :=
  let prefix := canonical_prefix level in
  let raw_names := split_names raw_input in
  let prefixed := map (λ raw, (raw, add_prefix prefix raw)) raw_names in
  let* expanded := expand_all prefix prefixed in
  let pairs := concat expanded in
  do for_each (λ '(_, name), check_structure level name) pairs then
  if same_name_from_different_raw pairs
  then raise (NameFormattingError (String.concat "," (map snd pairs)))
  else ret (dedup (map snd pairs)).
(** A name without comma, outer blank or dynamic tag. *)
Definition plain (name : string) : Prop :=
  strip name = name ∧ has_char is_comma name = false ∧
  substitute_dynamic_tags name = name.

(** A name that every step of the formatter leaves as it is. *)
Definition settled (level : Prefix) (name : string) : Prop :=
  plain name ∧
  String.prefix (canonical_prefix level) name = true ∧
  expand_range (canonical_prefix level) name = ret [name] ∧
  structure_violation level name = None.

End Formatter.

(** ** A token grammar to run the formatter with *)

(** The default prefixes of the configuration. *)
Definition default_prefix (level : Prefix) : string := prefix_str level +:+ "-".

(** [s.replace(tag, new)]. *)
Fixpoint replace_tag_go (fuel : nat) (tag new s : string) : string :=
  match fuel with
  | O => s
  | S fuel' =>
      match split_at_tag tag s with
      | Some (before, after) =>
          before +:+ new +:+ replace_tag_go fuel' tag new after
      | None => s
      end
  end.

Definition replace_tag (tag new s : string) : string :=
  replace_tag_go (String.length s) tag new s.

(** The clock a run reads. *)
Record Clock := { today : string; now : string }.

Definition substitute_with (clock : Clock) (raw_name : string) : string :=
  replace_tag "@DATE@" (today clock)
    (replace_tag "@TIME@" (now clock)
       (replace_tag "@DATETIME@" (today clock +:+ "T" +:+ now clock) raw_name)).

(** The first two structural rules of spec 4.3: a value that is not empty
    and holds no dash, and no key twice. *)
Definition token_key (token : string) : string :=
  match split_by (λ c, Ascii.eqb c "-") token with
  | key :: _ => key
  | [] => ""
  end.

Definition structure_rule (level : Prefix) (name : string) : option string :=
  let value :=
    (span_token (string_drop (String.length (default_prefix level)) name)).1 in
  if negb (String.prefix (default_prefix level) name)
  then Some ("the prefix token is not first in " +:+ name)
  else if bool_decide (value = "")
  then Some ("the value is empty in " +:+ name)
  else if has_char (λ c, Ascii.eqb c "-") value
  then Some ("the value holds the delimiter in " +:+ name)
  else if bool_decide (NoDup (map token_key (tokens name)))
  then None
  else Some ("a key is repeated in " +:+ name).

Definition noon : Clock := {| today := "20240131"; now := "120000" |}.

(** * Vocabulary of the statements and proofs *)

(** ** Comprehensions over partial element functions *)

(** Both absent-value indexing and integer parsing are of this shape: a
    partial function whose undefined points all raise one exception. *)
Definition lift {A B} (e : exn) (g : A → option B) (x : A) : M B :=
  match g x with
  | Some y => ret y
  | None => raise e
  end.

Definition value_num (value : string) : option Z :=
  Z.of_uint <$> NilZero.uint_of_string value.

(** ** The body of [get_max_sub_or_ses_num_and_value_length] once the
    values are extracted (lines 147 to 171 of getters.py) *)

Definition after_extraction (prefix : Prefix) (all_values_str : list string)
    : M (Z * Z) :=
  let all_num_value_digits :=
    map (λ value, Z.of_nat (String.length value)) all_values_str in
  do (if negb (len_set all_num_value_digits =? 1)%nat
      then raise_error (inconsistent_digits_message prefix)
      else ret tt) then
  let* num_value_digits := index0 all_num_value_digits in
  let* value_nums := list_comp sub_or_ses_value_to_int all_values_str in
  let all_value_nums := merge_sort Z.le value_nums in
  do (if negb (integers_are_consecutive all_value_nums)
      then warn (skipped_number_message all_value_nums)
      else ret tt) then
  let* max_existing_num := py_max all_value_nums in
  ret (max_existing_num, num_value_digits).

#[local] Instance Z_le_total : Total Z.le.
Proof. intros x y. lia. Qed.

(** The warnings and the maximum once the values are parsed. *)
Definition after_parsing (num_value_digits : Z) (value_nums : list Z)
    : M (Z * Z) :=
  let all_value_nums := merge_sort Z.le value_nums in
  do (if negb (integers_are_consecutive all_value_nums)
      then warn (skipped_number_message all_value_nums)
      else ret tt) then
  let* max_existing_num := py_max all_value_nums in
  ret (max_existing_num, num_value_digits).

(** [m] is the largest of the numbers [nums]. *)
Definition is_max (m : Z) (nums : list Z) : Prop :=
  m ∈ nums ∧ Forall (λ n, n ≤ m) nums.

(** ** Names, values and numbers of a level *)

(** A name belongs to a level when its first piece is the level prefix. *)
Definition at_level (prefix : Prefix) (name : string) : Prop :=
  first_piece name = prefix_str prefix.


(** [n] is the number of some name of the level among [names]. *)
Definition used_number (prefix : Prefix) (names : list string) (n : Z) : Prop :=
  ∃ name value, name ∈ names ∧ at_level prefix name ∧
                piece2 name = Some value ∧ value_num value = Some n.

(** Every name of the level among [names] carries a value of [w]
    characters that parses as an integer. *)
Definition numbered_with_width (prefix : Prefix) (names : list string) (w : Z)
    : Prop :=
  ∀ name, name ∈ names → at_level prefix name →
    ∃ value n, piece2 name = Some value ∧ value_num value = Some n ∧
               Z.of_nat (String.length value) = w.

(** The warnings of a call that found the sorted numbers [nums]. *)
Definition gap_warnings (nums : list Z) : list string :=
  if integers_are_consecutive nums then [] else [skipped_number_message nums].

(** The names the search reports, local first. *)
Definition reported {Configs : Type}
    (search : Configs → option string → string → bool → FolderNames)
    (cfg : Configs) (sub : option string) (search_str : string)
    : list string :=
  local (search cfg sub search_str false) ++
  central (search cfg sub search_str false).

(** The level a call works at. *)
Definition level_of (sub : option string) : Prefix :=
  if truthy sub then ses_level else sub_level.

(** How a call renders the number [n] with [w] digits. *)
Definition rendered (prefix : Prefix) (return_with_prefix : bool)
    (w n : Z) : string :=
  if return_with_prefix
  then prefix_str prefix +:+ "-" +:+ zfill w (str n)
  else zfill w (str n).

(** What a call suggests once its level is fixed (lines 76 to 96 of
    getters.py with [prefix] given). *)
Definition suggestion_at `{PySet} (prefix : Prefix) (names : list string)
    (return_with_prefix : bool) (default_num_value_digits : Z) : M string :=
  let* found := get_max_sub_or_ses_num_and_value_length
                  (list_of_set names) prefix (Some default_num_value_digits) in
  ret (if return_with_prefix
       then prefix_str prefix +:+ "-" +:+ zfill (snd found) (str (fst found + 1))
       else zfill (snd found) (str (fst found + 1))).

(** ** Strings *)

(** A string that does not begin with a sign: what [str] gives for a
    number that is not negative. *)
Definition unsigned (s : string) : Prop :=
  match s with
  | String c _ => is_sign c = false
  | EmptyString => True
  end.

(** What [span_token] leaves is empty or begins at an underscore. *)
Definition at_underscore (s : string) : Prop :=
  match s with
  | String c _ => Ascii.eqb c "_" = true
  | EmptyString => True
  end.

(** Decimal digits. *)
Definition is_digit (c : ascii) : bool :=
  match Ascii.is_nat c with Some _ => true | None => false end.

Definition digits_only (s : string) : Prop :=
  has_char (λ c, negb (is_digit c)) s = false.

(** ** Concrete runs *)

(** A search that reports fixed lists. *)
Definition fixed_search (local_names central_names : list string)
    : unit → option string → string → bool → FolderNames :=
  λ _ _ _ _, {| local := local_names; central := central_names |}.

(** Discharges [numbered_with_width] on a concrete list of names. *)
Ltac check_each_name :=
  let name := fresh "name" in
  let Hin := fresh "Hin" in
  intros name Hin _;
  repeat (apply elem_of_cons in Hin as [->|Hin];
          [eexists _, _; split_and!; reflexivity|]);
  by apply elem_of_nil in Hin.

(** Another admissible order of [list(set(...))]: last occurrences first. *)
Program Definition reversed_PySet : PySet :=
  {| list_of_set := λ l, remove_dups (reverse l) |}.
Next Obligation. intros. apply NoDup_remove_dups. Qed.
Next Obligation.
  intros l x. cbn. by rewrite elem_of_remove_dups, elem_of_reverse.
Qed.

(** * Further code of the repository *)

(** ** pathlib *)

(** A [pathlib.Path] on a POSIX system: the root ("", "/" or "//") and
    the parts after it. The drive is always empty there. *)
Record PurePath := { root : string; parts : list string }.

#[export] Instance PurePath_eq_dec : EqDecision PurePath.
Proof. solve_decision. Defined.

(** [Path(s)]: split at "/", drop empty parts and "."; two leading
    slashes, and only exactly two, are kept as the root. *)
Definition is_slash (c : ascii) : bool := Ascii.eqb c "/".

Definition splitroot (s : string) : string :=
  match s with
  | String c1 (String c2 (String c3 _)) =>
      if is_slash c1
      then if is_slash c2 && negb (is_slash c3) then "//" else "/"
      else ""
  | String c1 (String c2 EmptyString) =>
      if is_slash c1 then if is_slash c2 then "//" else "/" else ""
  | String c1 EmptyString => if is_slash c1 then "/" else ""
  | EmptyString => ""
  end.

Definition Path (s : string) : PurePath :=
  {| root := splitroot s;
     parts := filter (λ part, part ≠ "" ∧ part ≠ ".") (split_by is_slash s) |}.

(** [p.as_posix()], which on POSIX is also [str(p)]. *)
Definition as_posix (p : PurePath) : string :=
  match root p, parts p with
  | EmptyString, [] => "."
  | _, _ => root p +:+ join "/" (parts p)
  end.

(** [p / q]. *)
Definition joinpath (p q : PurePath) : PurePath :=
  if bool_decide (root q = "") then {| root := root p; parts := parts p ++ parts q |}
  else q.

(** The parts with the anchor in front, as [relative_to] compares them. *)
Definition abs_parts (p : PurePath) : list string :=
  if bool_decide (root p = "") then parts p else "" :: root p :: parts p.

(** [p.relative_to(other)]. *)
Definition relative_to (p other : PurePath) : M PurePath :=
  let n := length (abs_parts other) in
  if (if (n =? 0)%nat then negb (bool_decide (root p = ""))
      else negb (bool_decide (take n (abs_parts p) = abs_parts other)))
  then raise ValueError
  else ret {| root := if (n =? 1)%nat then root p else "";
              parts := drop n (abs_parts p) |}.

(** ** datashuttle/utils/utils.py, paths *)

Definition path_already_stars_with_base_dir (base_dir path_ : PurePath) : bool :=
  String.prefix (as_posix base_dir) (as_posix path_).

Definition get_path_after_base_dir (base_dir path_ : PurePath) : M PurePath :=
  if path_already_stars_with_base_dir base_dir path_
  then relative_to path_ base_dir
  else ret path_.

(** ** datashuttle/configs/canonical_folders.py *)

(** [get_datashuttle_path]: [Path.home() / ".datashuttle"]. *)
Definition get_datashuttle_path (home : PurePath) : PurePath :=
  joinpath home (Path ".datashuttle").

Definition get_non_sub_names : list string :=
  ["all_ses"; "all_non_ses"; "all_datatype"; "all_ses_level_non_datatype"].

Definition get_non_ses_names : list string :=
  ["all_sub"; "all_non_sub"; "all_datatype"; "all_ses_level_non_datatype"].

Definition get_top_level_folders : list string := ["rawdata"; "derivatives"].

(** ** datashuttle/utils/getters.py, the projects of this machine *)

Section ExistingProjects.
(** The home folder, the folder search and [Path.glob] read the file
    system and are taken as given. *)
Variable home : PurePath.
Variable search_filesystem_path_for_folders : PurePath → list string.
Variable glob : PurePath → string → list PurePath.

Definition two_configs_message (folder_name : string)
    (datashuttle_path : PurePath) : string :=
  "There are two config files in project" +:+ folder_name +:+ " at path " +:+
  as_posix datashuttle_path +:+
  ". There should only ever be one config per project. ".

(** The loop over the folders, with the two lists it appends to. *)
Fixpoint collect_projects (datashuttle_path : PurePath)
    (all_folders : list string)
    (existing_project_names : list string)
    (existing_project_paths : list PurePath)
    : M (list string * list PurePath) :=
  match all_folders with
  | [] => ret (existing_project_names, existing_project_paths)
  | folder_name :: rest =>
      let config_file :=
        glob (joinpath datashuttle_path (Path folder_name)) "config.yaml" in
      if (1 <? length config_file)%nat then
        raise_error (two_configs_message folder_name datashuttle_path)
      else if (length config_file =? 1)%nat then
        collect_projects datashuttle_path rest
          (existing_project_names ++ [folder_name])
          (existing_project_paths ++
             [joinpath datashuttle_path (Path folder_name)])
      else
        collect_projects datashuttle_path rest
          existing_project_names existing_project_paths
  end.

Definition get_existing_project_paths_and_names
    : M (list string * list PurePath) :=
  let datashuttle_path := get_datashuttle_path home in
  let all_folders :=
    search_filesystem_path_for_folders (joinpath datashuttle_path (Path "*")) in
  collect_projects datashuttle_path all_folders [] [].
(** The number of config files found in a folder of the datashuttle path. *)
Definition configs_in (folder_name : string) : nat :=
  length (glob (joinpath (get_datashuttle_path home) (Path folder_name))
               "config.yaml").

End ExistingProjects.

(** A file system for concrete runs: three folders under
    "/home/user/.datashuttle", the second without a config, and a fourth
    with two configs when [broken] is set. *)
Definition sample_search (broken : bool) : PurePath → list string :=
  λ _, if broken then ["mice"; "scratch"; "rats"; "old"]
       else ["mice"; "scratch"; "rats"].

Definition sample_glob : PurePath → string → list PurePath :=
  λ folder _,
    if bool_decide (folder = Path "/home/user/.datashuttle/scratch") then []
    else if bool_decide (folder = Path "/home/user/.datashuttle/old")
    then [joinpath folder (Path "config.yaml");
          joinpath folder (Path "config.yaml")]
    else [joinpath folder (Path "config.yaml")].

(** ** datashuttle/tui/tabs/create_folders.py *)

(** What [interface.get_name_templates()] returns: the dict with the
    keys "on", "sub" and "ses". *)
Record NameTemplates := {
  template_on : bool;
  template_sub : option string;
  template_ses : option string
}.

Definition template_of (templates : NameTemplates) (prefix : Prefix)
    : option string :=
  match prefix with
  | sub_level => template_sub templates
  | ses_level => template_ses templates
  end.

(** What a handler of the tab does to the screen: it opens the error
    dialog or writes the value of an input widget. *)
Inductive TabAction : Type :=
  | show_modal_error_dialog (message : string)
  | set_input_value (input_id : string) (value : string).

Section CreateFoldersTab.
(** The interface and the subject input widget are read, not modelled:
    the name templates, the next subject number, the next session number
    of a subject, and the names typed into the subject input. *)
Variable get_name_templates : NameTemplates.
Variable get_next_sub_number : string.
Variable get_next_ses_number : string → string.
Variable subject_input_names : list string.

Definition templates_on (prefix : Prefix) : bool :=
  template_on get_name_templates &&
  bool_decide (template_of get_name_templates prefix ≠ None).

Definition fill_input_with_template (prefix : Prefix) (input_id : string)
    : TabAction :=
  let fill_value :=
    if templates_on prefix
    then default "" (template_of get_name_templates prefix)
    else prefix_str prefix +:+ "-" in
  set_input_value input_id fill_value.

Definition fill_input_with_next_sub_or_ses_template (prefix : Prefix)
    (input_id : string) : M TabAction :=
  let fill (next_val : string) : M TabAction :=
    let fill_value :=
      if templates_on prefix then
        let split_name :=
          split_by (λ c, Ascii.eqb c "_")
                   (default "" (template_of get_name_templates prefix)) in
        join "_" (next_val :: drop 1 split_name)
      else next_val in
    ret (set_input_value input_id fill_value) in
  match prefix with
  | sub_level => fill get_next_sub_number
  | ses_level =>
      let sub_names := subject_input_names in
      if (1 <? length sub_names)%nat then
        ret (show_modal_error_dialog
               "Can only suggest next session number when a single subject is provided.")
      else if bool_decide (sub_names = [""]) then
        ret (show_modal_error_dialog
               "Must input a subject number before suggesting next session number.")
      else
        let* sub := index0 sub_names in
        fill (get_next_ses_number sub)
  end.
End CreateFoldersTab.

(** ** More of Python: values of several types, more exceptions *)

(** The values a config holds. *)
Inductive PyVal : Type :=
  | PyNone
  | PyBool (b : bool)
  | PyInt (n : Z)
  | PyStr (s : string)
  | PyPath (p : PurePath).

(** What code outside getters.py raises besides the exceptions above. *)
Inductive error : Type :=
  | Raised (e : exn)
  | KeyError (key : string)
  | TypeError (message : string)
  | UnboundLocalError (name : string)
  | AttributeError (message : string).

(** A computation that raises or returns, and logs nothing. *)
Definition R (A : Type) : Type := (error + A)%type.

Definition r_bind {A B} (m : R A) (k : A → R B) : R B :=
  match m with
  | inl e => inl e
  | inr a => k a
  end.

Notation "'get' x ':=' m 'in' k" := (r_bind m (λ x, k))
  (at level 10, x name, m at level 100, k at level 200,
   format "'get'  x  :=  m  'in'  '/' k").
Notation "'ensure' m 'then' k" := (r_bind m (λ _, k))
  (at level 10, m at level 100, k at level 200,
   format "'ensure'  m  'then'  '/' k").

(** [utils.raise_error] seen from such a computation. canonical_configs.py
    and datashuttle.py import it from [datashuttle.utils_mod.utils], which
    is not among the sources; it is read as the function of that name in
    utils/utils.py. *)
Definition r_raise_error {A} (message : string) : R A :=
  inl (Raised (BaseException message)).

(** [for x in xs: f(x)] for such computations. *)
Fixpoint r_for_each {A} (f : A → R unit) (xs : list A) : R unit :=
  match xs with
  | [] => inr tt
  | x :: xs' => ensure f x then r_for_each f xs'
  end.

(** [[f(x) for x in xs]] for such computations. *)
Fixpoint r_list_comp {A B} (f : A → R B) (xs : list A) : R (list B) :=
  match xs with
  | [] => inr []
  | x :: xs' => get y := f x in get ys := r_list_comp f xs' in inr (y :: ys)
  end.

(** A dict keeps its keys in insertion order: a list of entries with
    distinct keys. [d[key]] raises [KeyError] on a missing key. *)
Definition Dict (V : Type) : Type := list (string * V).

Definition keys {V} (d : Dict V) : list string := map fst d.

Fixpoint getitem {V} (d : Dict V) (key : string) : R V :=
  match d with
  | [] => inl (KeyError key)
  | (k, v) :: d' => if bool_decide (k = key) then inr v else getitem d' key
  end.

(** [value in options] for a list of strings: only a string equals one. *)
Definition in_strings (value : PyVal) (options : list string) : bool :=
  match value with
  | PyStr s => bool_decide (s ∈ options)
  | _ => false
  end.

(** [value is None]. *)
Definition is_None (value : PyVal) : bool :=
  match value with
  | PyNone => true
  | _ => false
  end.

(** Truthiness. *)
Definition py_truthy (value : PyVal) : bool :=
  match value with
  | PyNone => false
  | PyBool b => b
  | PyInt n => negb (n =? 0)
  | PyStr s => negb (bool_decide (s = ""))
  | PyPath _ => true
  end.

(** ** datashuttle/utils_mod/canonical_configs.py *)

(** The keys of [get_canonical_config_dict], in its order. *)
Definition canonical_config_keys : list string :=
  ["local_path"; "remote_path"; "connection_method"; "remote_host_id";
   "remote_host_username"; "use_ephys"; "use_behav"; "use_imaging";
   "use_histology"].

Definition get_experiment_types : list string :=
  ["use_ephys"; "use_behav"; "use_imaging"; "use_histology"].

(** The types of [get_canonical_config_required_types]. *)
Inductive RequiredType : Type :=
  | str_or_Path
  | only_str
  | str_or_None
  | only_bool.

Definition get_canonical_config_required_types : Dict RequiredType :=
  [("local_path", str_or_Path); ("remote_path", str_or_Path);
   ("connection_method", only_str); ("remote_host_id", str_or_None);
   ("remote_host_username", str_or_None); ("use_ephys", only_bool);
   ("use_behav", only_bool); ("use_imaging", only_bool);
   ("use_histology", only_bool)].

(** [isinstance(value, required)]; a union goes through [get_args]. *)
Definition isinstance (value : PyVal) (required : RequiredType) : bool :=
  match required, value with
  | str_or_Path, (PyStr _ | PyPath _) => true
  | only_str, PyStr _ => true
  | str_or_None, (PyStr _ | PyNone) => true
  | only_bool, PyBool _ => true
  | _, _ => false
  end.

(** How the type, or the tuple [get_args] gives, prints in the message. *)
Definition repr_required (required : RequiredType) : string :=
  match required with
  | str_or_Path => "(<class 'str'>, <class 'pathlib.Path'>)"
  | only_str => "<class 'str'>"
  | str_or_None => "(<class 'str'>, <class 'NoneType'>)"
  | only_bool => "<class 'bool'>"
  end.

Definition check_config_types (config_dict : Dict PyVal) : R unit :=
  let required_types := get_canonical_config_required_types in
  r_for_each
    (λ key,
       get required := getitem required_types key in
       get value := getitem config_dict key in
       if negb (isinstance value required)
       then r_raise_error
              ("The type of the value at " +:+ key +:+
               " is incorrect, it must be " +:+ repr_required required +:+
               ". Config file was not updated.")
       else inr tt)
    (keys config_dict).

(** [s[0]]. *)
Definition first_char (s : string) : R ascii :=
  match s with
  | String c _ => inr c
  | EmptyString => inl (Raised IndexError)
  end.

(** [value.as_posix()]: only a path has the method. *)
Definition call_as_posix (value : PyVal) : R string :=
  match value with
  | PyPath p => inr (as_posix p)
  | PyStr _ => inl (AttributeError "'str' object has no attribute 'as_posix'")
  | PyNone =>
      inl (AttributeError "'NoneType' object has no attribute 'as_posix'")
  | PyBool _ => inl (AttributeError "'bool' object has no attribute 'as_posix'")
  | PyInt _ => inl (AttributeError "'int' object has no attribute 'as_posix'")
  end.

Definition check_dict_values_and_inform_user (config_dict : Dict PyVal)
    : R unit :=
  let canonical_keys := canonical_config_keys in
  ensure r_for_each
           (λ key,
              if negb (bool_decide (key ∈ keys config_dict))
              then r_raise_error
                     ("Loading Failed. The key " +:+ key +:+
                      " was not found in the supplied config. " +:+
                      "Config file was not updated.")
              else inr tt)
           canonical_keys then
  ensure r_for_each
           (λ key,
              if negb (bool_decide (key ∈ canonical_keys))
              then r_raise_error
                     ("The supplied config contains an invalid key: " +:+ key
                      +:+ ". Config file was not updated.")
              else inr tt)
           (keys config_dict) then
  ensure check_config_types config_dict then
  ensure (if negb (bool_decide (keys config_dict = canonical_keys))
          then r_raise_error
                 "New config keys are in the wrong order. The order should be: dict_keys(['local_path', 'remote_path', 'connection_method', 'remote_host_id', 'remote_host_username', 'use_ephys', 'use_behav', 'use_imaging', 'use_histology'])"
          else inr tt) then
  get connection_method := getitem config_dict "connection_method" in
  ensure (if negb (in_strings connection_method ["ssh"; "local_filesystem"])
          then r_raise_error "connection method must be ssh or local"
          else inr tt) then
  get remote_path := getitem config_dict "remote_path" in
  get remote_posix := call_as_posix remote_path in
  get first := first_char remote_posix in
  ensure (if Ascii.eqb first "~"
          then r_raise_error
                 "remote_path must contain the full directory path with no ~ syntax"
          else inr tt) then
  get used := r_list_comp (getitem config_dict) get_experiment_types in
  ensure (if negb (existsb py_truthy used)
          then r_raise_error
                 "At least one experiment_type must be True in configs, from: use_ephys use_behav use_imaging use_histology"
          else inr tt) then
  get connection_method := getitem config_dict "connection_method" in
  if in_strings connection_method ["ssh"] then
    get remote_host_id := getitem config_dict "remote_host_id" in
    if negb (py_truthy remote_host_id) then
      r_raise_error
        "remote_host_id and remote_host_username are required if connection_method is ssh."
    else
      get remote_host_username := getitem config_dict "remote_host_username" in
      if negb (py_truthy remote_host_username) then
        r_raise_error
          "remote_host_id and remote_host_username are required if connection_method is ssh."
      else inr tt
  else inr tt.

Definition handle_bool (key : string) (value : PyVal) : R PyVal :=
  if bool_decide (key ∈ ["use_ephys"; "use_behav"; "use_imaging"; "use_histology"])
  then
    let value :=
      if in_strings value ["None"; "none"] || is_None value
      then PyBool false else value in
    match value with
    | PyStr s =>
        if negb (bool_decide (s ∈ ["True"; "False"; "true"; "false"]))
        then r_raise_error
               ("Input value for " +:+ key +:+ " must be True or False")
        else inr (PyBool (bool_decide (s ∈ ["True"; "true"])))
    | _ => inr value
    end
  else if in_strings value ["None"; "none"] then inr PyNone
  else inr value.

(** [handle_cli_or_supplied_config_bools] writes into the dict it is
    given: the dict as the call leaves it comes back with the outcome, also
    when a value made it raise half way. *)
Fixpoint handle_bools_from (done_ todo : Dict PyVal) : Dict PyVal * R unit :=
  match todo with
  | [] => (done_, inr tt)
  | (key, value) :: rest =>
      match handle_bool key value with
      | inr value' => handle_bools_from (done_ ++ [(key, value')])%list rest
      | inl e => ((done_ ++ todo)%list, inl e)
      end
  end.

Definition handle_cli_or_supplied_config_bools (dict_ : Dict PyVal)
    : Dict PyVal * R unit :=
  handle_bools_from [] dict_.

(** The configs the checks are meant to let through: the nine canonical
    keys in their order, each value of its type, the remote path a path
    that does not begin with "~", a known connection method, at least one
    experiment type switched on and, for ssh, a host and a user name that
    are not empty. *)
Definition acceptable_config (config_dict : Dict PyVal) : Prop :=
  ∃ local_path remote_path connection_method remote_host_id
    remote_host_username use_ephys use_behav use_imaging use_histology first,
    config_dict =
      [("local_path", local_path); ("remote_path", PyPath remote_path);
       ("connection_method", PyStr connection_method);
       ("remote_host_id", remote_host_id);
       ("remote_host_username", remote_host_username);
       ("use_ephys", PyBool use_ephys); ("use_behav", PyBool use_behav);
       ("use_imaging", PyBool use_imaging);
       ("use_histology", PyBool use_histology)] ∧
    isinstance local_path str_or_Path = true ∧
    (connection_method = "ssh" ∨ connection_method = "local_filesystem") ∧
    isinstance remote_host_id str_or_None = true ∧
    isinstance remote_host_username str_or_None = true ∧
    first_char (as_posix remote_path) = inr first ∧ first ≠ "~"%char ∧
    use_ephys || use_behav || use_imaging || use_histology = true ∧
    (connection_method = "ssh" →
     py_truthy remote_host_id = true ∧ py_truthy remote_host_username = true).

(** ** datashuttle/datashuttle.py, experiment types *)

(** An experiment type as callers give it: one name, or a list of names. *)
Inductive ExperimentType : Type :=
  | one_type (name : string)
  | type_list (names : list string).

(** [list(s)]: the characters of a string, each as a string. *)
Fixpoint chars (s : string) : list string :=
  match s with
  | String c rest => String c "" :: chars rest
  | EmptyString => []
  end.

Section ExperimentTypes.
(** The class of the directory objects is not among the sources; only
    their [name] is read here. [_ses_dirs] maps experiment type keys to
    them. The text of the message [_check_experiment_type_is_valid] prints
    formats its arguments with [repr] and is left open. *)
Context {Directory : Type}.
Variable name : Directory → string.
Variable _ses_dirs : Dict Directory.
Variable invalid_message : ExperimentType → list string → string.

(** Returns what it printed and its verdict. *)
Definition _check_experiment_type_is_valid (experiment_type : ExperimentType)
    (prompt_on_fail : bool) : list string * bool :=
  let is_valid :=
    match experiment_type with
    | type_list names =>
        let valid_keys := (keys _ses_dirs ++ ["all"])%list in
        forallb (λ type, bool_decide (type ∈ valid_keys)) names
    | one_type type =>
        bool_decide (type ∈ keys _ses_dirs) || bool_decide (type = "all")
    end in
  (if prompt_on_fail && negb is_valid
   then [invalid_message experiment_type (keys _ses_dirs)] else [],
   is_valid).

(** The loop of [_get_ses_dirs_items_from_list_of_keys]: the values
    looked up, and the last value [key] was bound to, if any. *)
Fixpoint lookup_each (experiment_type : list string) (key : option string)
    (values : list Directory) : R (option string * list Directory) :=
  match experiment_type with
  | [] => inr (key, values)
  | k :: rest =>
      get value := getitem _ses_dirs k in
      lookup_each rest (Some k) (values ++ [value])%list
  end.

Definition _get_ses_dirs_items_from_list_of_keys
    (experiment_type : list string) : R (list (string * Directory)) :=
  get found := lookup_each experiment_type None [] in
  match found.1 with
  | Some key => inr (zip (chars key) found.2)
  | None => inl (UnboundLocalError "key")
  end.

Definition _get_experiment_type_items (experiment_type : ExperimentType)
    : R (list (string * Directory)) :=
  match experiment_type with
  | type_list names =>
      if negb (bool_decide ("all" ∈ names))
      then _get_ses_dirs_items_from_list_of_keys names
      else if negb (bool_decide (names = ["all"]))
      then inl (TypeError "unhashable type: 'list'")
      else inr _ses_dirs
  | one_type type =>
      if negb (bool_decide (type = "all"))
      then get value := getitem _ses_dirs type in inr [(type, value)]
      else inr _ses_dirs
  end.

(** The loop of [_search_base_dir_for_experiment_directories] over the
    directory names found in the base directory. *)
Fixpoint match_directories (top_level_directory_names : list string)
    (ses_dir_keys : list string) (ses_dir_values : list Directory)
    : R (list (string * Directory)) :=
  match top_level_directory_names with
  | [] => inr (zip ses_dir_keys ses_dir_values)
  | dir_name :: rest =>
      let experiment_type_key :=
        map fst (filter (λ entry, name entry.2 = dir_name) _ses_dirs) in
      if (1 <? length experiment_type_key)%nat then
        r_raise_error
          "There are matching experiment type names in the tree specified at self._ses_dirs. Remove duplicates"
      else
        match experiment_type_key with
        | key :: _ =>
            get value := getitem _ses_dirs key in
            match_directories rest (ses_dir_keys ++ [key])%list
                              (ses_dir_values ++ [value])%list
        | [] => match_directories rest ses_dir_keys ses_dir_values
        end
  end.

(** [_search_base_dir_for_experiment_directories], given what the search
    of the base directory found. *)
Definition _search_base_dir_for_experiment_directories
    (top_level_directory_names : list string) : R (list (string * Directory)) :=
  match_directories top_level_directory_names [] [].
End ExperimentTypes.

(** A small [_ses_dirs]: each directory as its name and whether it is
    used. *)
Definition sample_ses_dirs : Dict (string * bool) :=
  [("ephys", ("ephys", true)); ("behav", ("behav", true));
   ("imaging", ("imaging", false)); ("histology", ("histology", true))].

(** A [_ses_dirs] in which two keys have directories of one name. *)
Definition sample_shared_name_dirs : Dict (string * bool) :=
  [("ephys", ("recordings", true)); ("behav", ("recordings", true));
   ("histology", ("histology", true))].

(** ** datashuttle/datashuttle.py, joining onto a base directory *)

(** The [subdirs] argument of [_join]: a string, or a list of names. *)
Inductive Subdirs : Type :=
  | subdirs_string (s : string)
  | subdirs_names (names : list string).

Section Join.
(** [cfg["local_path"]], [cfg.get_remote_path()] and
    [utils.get_appdir_path(project_name)] are path objects held or built
    elsewhere. [utils.path_already_stars_with_base_dir] is read as the
    function of that name in utils/utils.py. *)
Variable local_path remote_path appdir_path : PurePath.

Definition _get_base_dir (base : string) : R PurePath :=
  if bool_decide (base = "local") then inr local_path
  else if bool_decide (base = "remote") then inr remote_path
  else if bool_decide (base = "appdir") then inr appdir_path
  else inl (UnboundLocalError "base_dir").

Definition _join (base : string) (subdirs : Subdirs) : R string :=
  let subdirs_str :=
    match subdirs with
    | subdirs_names names => join "/" names
    | subdirs_string s => s
    end in
  let subdirs_path := Path subdirs_str in
  get base_dir := _get_base_dir base in
  let joined_path :=
    if path_already_stars_with_base_dir base_dir subdirs_path
    then subdirs_path
    else joinpath base_dir subdirs_path in
  inr (as_posix joined_path).
End Join.

(** What every path object satisfies: a root pathlib knows, and parts
    that are names. *)
Definition well_formed (p : PurePath) : Prop :=
  root p ∈ [""; "/"; "//"]
  ∧ Forall (λ part, part ≠ "" ∧ part ≠ "." ∧ has_char is_slash part = false)
           (parts p).

(** ** datashuttle/utils/rclone.py *)

(** The double quote, and the name [type(value).__name__] of a value. *)
Definition quote : string := String "034"%char "".

Definition type_name (value : PyVal) : string :=
  match value with
  | PyNone => "NoneType"
  | PyBool _ => "bool"
  | PyInt _ => "int"
  | PyStr _ => "str"
  | PyPath _ => "PosixPath"
  end.

(** A call of [subprocess.run]: the command line and whether the output
    is piped. What the process then does is outside this code, so the
    completed process is identified with the call. *)
Record Subprocess := { run_command : string; run_piped : bool }.

Definition call_rclone (command : string) (pipe_std : bool) : Subprocess :=
  {| run_command := "rclone " +:+ command; run_piped := pipe_std |}.

(** [rclone_args]: a chain of [if]s without [else]; [arg] stays unbound
    for any other name. *)
Definition rclone_args (name : string) : R string :=
  let arg := None in
  let arg := if bool_decide (name = "dry_run") then Some "--dry-run" else arg in
  let arg := if bool_decide (name = "create_empty_src_dirs")
             then Some "--create-empty-src-dirs" else arg in
  let arg := if bool_decide (name = "copy") then Some "copy" else arg in
  let arg := if bool_decide (name = "ignore_existing")
             then Some "--ignore-existing" else arg in
  let arg := if bool_decide (name = "progress") then Some "--progress" else arg in
  match arg with
  | Some arg => inr arg
  | None => inl (UnboundLocalError "arg")
  end.

(** ["-" + value]. *)
Definition dash (value : PyVal) : R string :=
  match value with
  | PyStr s => inr ("-" +:+ s)
  | _ => inl (TypeError ("can only concatenate str (not " +:+ quote +:+
                         type_name value +:+ quote +:+ ") to str"))
  end.

(** [include_list] holds strings, as [" ".join] needs. *)
Definition handle_rclone_arguments (rclone_options : Dict PyVal)
    (include_list : list string) : R string :=
  get create := rclone_args "create_empty_src_dirs" in
  let extra_arguments_list := [create] in
  get verbosity := getitem rclone_options "transfer_verbosity" in
  get verbosity_flag := dash verbosity in
  let extra_arguments_list := (extra_arguments_list ++ [verbosity_flag])%list in
  get overwrite := getitem rclone_options "overwrite_old_files" in
  get extra_arguments_list :=
    (if negb (py_truthy overwrite)
     then get flag := rclone_args "ignore_existing" in
          inr (extra_arguments_list ++ [flag])%list
     else inr extra_arguments_list) in
  get progress := getitem rclone_options "show_transfer_progress" in
  get extra_arguments_list :=
    (if py_truthy progress
     then get flag := rclone_args "progress" in
          inr (extra_arguments_list ++ [flag])%list
     else inr extra_arguments_list) in
  get dry_run := getitem rclone_options "dry_run" in
  get extra_arguments_list :=
    (if py_truthy dry_run
     then get flag := rclone_args "dry_run" in
          inr (extra_arguments_list ++ [flag])%list
     else inr extra_arguments_list) in
  let extra_arguments_list := (extra_arguments_list ++ include_list)%list in
  inr (join " " extra_arguments_list).

Section TransferData.
(** [cfg.get_base_folder("local").as_posix()], the same for "remote",
    and [cfg.get_rclone_config_name()]: the config class is not among
    the sources. *)
Variable local_filepath remote_filepath rclone_config_name : string.

Definition transfer_data (upload_or_download : string)
    (include_list : list string) (rclone_options : Dict PyVal)
    : R Subprocess :=
  get extra_arguments := handle_rclone_arguments rclone_options include_list in
  if bool_decide (upload_or_download = "upload") then
    get copy := rclone_args "copy" in
    inr (call_rclone
           (copy +:+ " " +:+
            quote +:+ local_filepath +:+ quote +:+ " " +:+
            quote +:+ rclone_config_name +:+ ":" +:+ remote_filepath +:+ quote
            +:+ " " +:+ extra_arguments)
           true)
  else if bool_decide (upload_or_download = "download") then
    get copy := rclone_args "copy" in
    inr (call_rclone
           (copy +:+ " " +:+
            quote +:+ rclone_config_name +:+ ":" +:+ remote_filepath +:+ quote
            +:+ " " +:+ quote +:+ local_filepath +:+ quote +:+ "  " +:+
            extra_arguments)
           true)
  else inl (UnboundLocalError "output").
End TransferData.

(** Each string with a space in front, one after the other. *)
Fixpoint spaced (l : list string) : string :=
  match l with
  | [] => ""
  | x :: l' => " " +:+ x +:+ spaced l'
  end.

Definition sample_rclone_options : Dict PyVal :=
  [("overwrite_old_files", PyBool false); ("transfer_verbosity", PyStr "vv");
   ("show_transfer_progress", PyBool false); ("dry_run", PyBool true)].

(** * Properties *)

Lemma second_piece_lift name : second_piece name = lift IndexError piece2 name.
Proof.
  unfold second_piece, lift, piece2.
  destruct (re_split name) as [|? [|? ?]]; reflexivity.
Qed.

Lemma sub_or_ses_value_to_int_lift value :
  sub_or_ses_value_to_int value = lift ValueError value_num value.
Proof.
  unfold sub_or_ses_value_to_int, lift, value_num.
  destruct (NilZero.uint_of_string value); reflexivity.
Qed.

Lemma list_comp_ext {A B} (f f' : A → M B) l :
  (∀ x, f x = f' x) → list_comp f l = list_comp f' l.
Proof.
  intros Hext. induction l as [|x l IH]; simpl; [done|].
  by rewrite Hext, IH.
Qed.

Lemma list_comp_lift {A B} (e : exn) (g : A → option B) l :
  list_comp (lift e g) l =
    if decide (Forall (λ x, is_Some (g x)) l) then ret (omap g l) else raise e.
Proof.
  induction l as [|x l IH].
  - by rewrite decide_True by constructor.
  - cbn [list_comp omap list_omap]. rewrite IH. unfold lift.
    destruct (decide (Forall _ (x :: l))) as [Hxl|Hxl].
    + apply Forall_cons_1 in Hxl as [[y Hx] Hl].
      rewrite Hx, decide_True by done. reflexivity.
    + destruct (g x) as [y|] eqn:Hx; [|reflexivity].
      rewrite decide_False; [reflexivity|].
      intros Hl. apply Hxl. constructor; [by rewrite Hx|done].
Qed.

Lemma list_comp_lift_Permutation {A B} (e : exn) (g : A → option B) l l' :
  l ≡ₚ l' →
  (list_comp (lift e g) l = raise e ∧ list_comp (lift e g) l' = raise e) ∨
  (∃ ys ys', list_comp (lift e g) l = ret ys ∧
             list_comp (lift e g) l' = ret ys' ∧ ys ≡ₚ ys').
Proof.
  intros Hperm. rewrite !list_comp_lift.
  destruct (decide (Forall _ l)) as [Hl|Hl].
  - right. exists (omap g l), (omap g l').
    rewrite decide_True by (by rewrite <- Hperm).
    split_and!; [done..|]. by apply omap_Permutation.
  - left. by rewrite decide_False by (by rewrite <- Hperm).
Qed.

(** ** Monad laws used below *)

Lemma bind_ret_l {A B} (a : A) (f : A → M B) : bind (ret a) f = f a.
Proof. unfold bind, ret. by destruct (f a). Qed.

Lemma bind_raise_l {A B} (e : exn) (f : A → M B) : bind (raise e) f = raise e.
Proof. reflexivity. Qed.

(** ** [len(set(l)) == 1] *)

Lemma len_set_Permutation l l' : l ≡ₚ l' → len_set l = len_set l'.
Proof. intros Hperm. unfold len_set. by rewrite Hperm. Qed.

Lemma len_set_1 l :
  len_set l = 1%nat ↔ ∃ w, w ∈ l ∧ Forall (λ x, x = w) l.
Proof.
  unfold len_set. split.
  - intros Hsize. apply size_1_elem_of in Hsize as [w Hw].
    exists w. split.
    + apply (elem_of_list_to_set (C:=gset Z)). rewrite Hw. set_solver.
    + apply Forall_forall. intros x Hx.
      apply (elem_of_list_to_set (C:=gset Z)) in Hx. rewrite Hw in Hx.
      set_solver.
  - intros (w & Hin & Hall).
    assert (list_to_set l = ({[ w ]} : gset Z)) as ->; [|apply size_singleton].
    apply set_eq. intros x. rewrite elem_of_list_to_set, elem_of_singleton.
    split; [|by intros ->].
    intros Hx. by apply (proj1 (Forall_forall _ _) Hall).
Qed.

Lemma get_max_nonempty all_folders prefix default_num_value_digits :
  all_folders ≠ [] →
  get_max_sub_or_ses_num_and_value_length
    all_folders prefix default_num_value_digits =
  (let* all_values_str :=
     get_values_from_bids_formatted_name all_folders prefix in
   after_extraction prefix all_values_str).
Proof. by destruct all_folders. Qed.

Lemma merge_sort_Z_Permutation (l l' : list Z) :
  l ≡ₚ l' → merge_sort Z.le l = merge_sort Z.le l'.
Proof.
  intros Hperm. apply (Sorted_unique Z.le); try apply Sorted_merge_sort; try apply _.
  by rewrite !merge_sort_Permutation.
Qed.

Lemma after_extraction_mixed prefix vs :
  (len_set (map (λ value, Z.of_nat (String.length value)) vs) =? 1)%nat = false →
  after_extraction prefix vs = raise_error (inconsistent_digits_message prefix).
Proof. intros Hlen. unfold after_extraction. by rewrite Hlen. Qed.

Lemma after_extraction_uniform prefix vs w :
  vs ≠ [] → Forall (λ v, Z.of_nat (String.length v) = w) vs →
  after_extraction prefix vs =
    (let* value_nums := list_comp sub_or_ses_value_to_int vs in
     after_parsing w value_nums).
Proof.
  intros Hne Hall. unfold after_extraction.
  assert (len_set (map (λ value, Z.of_nat (String.length value)) vs) = 1%nat)
    as ->.
  { apply len_set_1. exists w. split.
    - destruct vs as [|v vs]; [done|]. apply Forall_cons_1 in Hall as [<- _].
      simpl. left.
    - apply Forall_forall. intros x Hx. apply list_elem_of_In, in_map_iff in Hx
        as (v & <- & Hv).
      apply (proj1 (Forall_forall _ _) Hall). by apply list_elem_of_In. }
  change (negb (1 =? 1)%nat) with false. cbv iota. rewrite bind_ret_l.
  destruct vs as [|v vs]; [done|]. apply Forall_cons_1 in Hall as [<- _].
  cbn [map index0]. rewrite bind_ret_l. reflexivity.
Qed.

Lemma widths_uniform vs :
  len_set (map (λ value, Z.of_nat (String.length value)) vs) = 1%nat →
  ∃ w, vs ≠ [] ∧ Forall (λ v, Z.of_nat (String.length v) = w) vs.
Proof.
  intros (w & Hin & Hall)%len_set_1. exists w. split.
  - intros ->. by apply elem_of_nil in Hin.
  - rewrite Forall_forall in Hall. apply Forall_forall. intros v Hv.
    apply Hall, list_elem_of_In, in_map_iff. exists v.
    split; [done|]. by apply list_elem_of_In.
Qed.

Lemma after_parsing_Permutation w nums nums' :
  nums ≡ₚ nums' → after_parsing w nums = after_parsing w nums'.
Proof.
  intros Hperm. unfold after_parsing.
  by rewrite (merge_sort_Z_Permutation _ _ Hperm).
Qed.

Lemma after_extraction_Permutation prefix vs vs' :
  vs ≡ₚ vs' → after_extraction prefix vs = after_extraction prefix vs'.
Proof.
  intros Hperm.
  pose proof (len_set_Permutation _ _
    (Permutation_map (λ value, Z.of_nat (String.length value)) Hperm)) as Hlen.
  destruct (len_set (map (λ value, Z.of_nat (String.length value)) vs) =? 1)%nat
    eqn:Hone.
  - apply Nat.eqb_eq in Hone.
    destruct (widths_uniform vs Hone) as (w & Hne & Hall).
    assert (vs' ≠ []) as Hne'.
    { intros ->. by apply Permutation_nil_r in Hperm. }
    rewrite (after_extraction_uniform _ vs w), (after_extraction_uniform _ vs' w);
      [|done|by rewrite <- Hperm|done..].
    rewrite (list_comp_ext _ _ vs sub_or_ses_value_to_int_lift).
    rewrite (list_comp_ext _ _ vs' sub_or_ses_value_to_int_lift).
    destruct (list_comp_lift_Permutation ValueError value_num vs vs' Hperm)
      as [[-> ->]|(nums & nums' & -> & -> & Hnums)]; [done|].
    rewrite !bind_ret_l. by apply after_parsing_Permutation.
  - rewrite !after_extraction_mixed; [done|by rewrite <- Hlen|done].
Qed.

Lemma get_values_lift all_names prefix :
  get_values_from_bids_formatted_name all_names prefix =
  list_comp (lift IndexError piece2)
    (filter (λ name, first_piece name = prefix_str prefix) all_names).
Proof. apply list_comp_ext, second_piece_lift. Qed.

(** On names that are all of one level the modelled extraction is the
    sibling [get_first_sub_ses_keys] of utils.py. *)
Lemma get_values_as_first_keys all_names prefix :
  (∀ name, name ∈ all_names →
           first_piece name = "sub" ∨ first_piece name = "ses" →
           first_piece name = prefix_str prefix) →
  get_values_from_bids_formatted_name all_names prefix =
  get_first_sub_ses_keys all_names.
Proof.
  intros Hlevel.
  unfold get_values_from_bids_formatted_name, get_first_sub_ses_keys.
  f_equal. induction all_names as [|name names IH]; [done|].
  assert (filter (λ name, first_piece name = prefix_str prefix) names =
          filter (λ name, first_piece name = "sub" ∨ first_piece name = "ses")
                 names) as IH'.
  { apply IH. intros other Hin. apply Hlevel. by right. }
  destruct (decide (first_piece name = "sub" ∨ first_piece name = "ses"))
    as [Hkey|Hkey].
  - rewrite !filter_cons_True, IH'; [done|done|]. apply Hlevel; [left|done].
  - rewrite !filter_cons_False, IH'; [done|done|].
    intros Hat. apply Hkey. rewrite Hat. destruct prefix; [by left|by right].
Qed.

(** The result of [get_max_sub_or_ses_num_and_value_length] does not
    depend on the order of the folder list. *)
Lemma get_max_Permutation all_folders all_folders' prefix default :
  all_folders ≡ₚ all_folders' →
  get_max_sub_or_ses_num_and_value_length all_folders prefix default =
  get_max_sub_or_ses_num_and_value_length all_folders' prefix default.
Proof.
  intros Hperm. destruct all_folders as [|name rest].
  { by apply Permutation_nil_l in Hperm as ->. }
  assert (all_folders' ≠ []) as Hne'.
  { intros ->. by apply Permutation_nil_r in Hperm. }
  rewrite !get_max_nonempty, !get_values_lift by done.
  destruct (list_comp_lift_Permutation IndexError piece2
              (filter (λ n, first_piece n = prefix_str prefix) (name :: rest))
              (filter (λ n, first_piece n = prefix_str prefix) all_folders'))
    as [[-> ->]|(vs & vs' & -> & -> & Hvs)]; [by rewrite Hperm|done|].
  rewrite !bind_ret_l. by apply after_extraction_Permutation.
Qed.

(** ** The maximum *)

Lemma fold_left_max_spec l x :
  fold_left Z.max l x ∈ x :: l ∧ Forall (λ y, y ≤ fold_left Z.max l x) (x :: l).
Proof.
  revert x. induction l as [|y l IH]; intros x; simpl.
  - split; [left|]. repeat constructor. lia.
  - destruct (IH (Z.max x y)) as [Hin Hall]. split.
    + apply elem_of_cons in Hin as [Hm|Hin]; [|by do 2 right].
      rewrite Hm. destruct (Z.max_spec x y) as [[_ ->]|[_ ->]];
        [right; left|left].
    + apply Forall_cons_1 in Hall as [Hxy Hall].
      repeat constructor; [lia..|done].
Qed.

Lemma after_parsing_nonempty w nums :
  nums ≠ [] →
  ∃ m, is_max m nums ∧
    after_parsing w nums =
      (if integers_are_consecutive (merge_sort Z.le nums) then []
       else [skipped_number_message (merge_sort Z.le nums)],
       inr (m, w)).
Proof.
  intros Hne. unfold after_parsing.
  pose proof (merge_sort_Permutation Z.le nums) as Hperm.
  destruct (merge_sort Z.le nums) as [|x sorted] eqn:Hsort.
  { by apply Permutation_nil_l in Hperm. }
  exists (fold_left Z.max sorted x). split.
  - destruct (fold_left_max_spec sorted x) as [Hin Hall].
    split; by rewrite <- Hperm.
  - by destruct (integers_are_consecutive (x :: sorted)).
Qed.

Lemma get_max_ok all_folders prefix default w :
  (∃ name, name ∈ all_folders ∧ at_level prefix name) →
  numbered_with_width prefix all_folders w →
  ∃ nums m,
    Sorted Z.le nums ∧ (∀ n, n ∈ nums ↔ used_number prefix all_folders n) ∧
    is_max m nums ∧
    get_max_sub_or_ses_num_and_value_length all_folders prefix default =
      (gap_warnings nums, inr (m, w)).
Proof.
  intros (name0 & Hin0 & Hlevel0) Hnum.
  assert (all_folders ≠ []) as Hne by (intros ->; by apply elem_of_nil in Hin0).
  rewrite get_max_nonempty, get_values_lift, list_comp_lift by done.
  set (level_names := filter (λ name, first_piece name = prefix_str prefix)
                             all_folders).
  assert (∀ name, name ∈ level_names ↔ name ∈ all_folders ∧ at_level prefix name)
    as Hlevel.
  { intros name. unfold level_names. rewrite list_elem_of_filter. tauto. }
  rewrite decide_True; last first.
  { apply Forall_forall. intros name [Hin Hat]%Hlevel.
    destruct (Hnum name Hin Hat) as (v & n & -> & _). by eexists. }
  rewrite bind_ret_l.
  set (vs := omap piece2 level_names).
  assert (∀ v, v ∈ vs ↔ ∃ name, name ∈ all_folders ∧ at_level prefix name ∧
                               piece2 name = Some v) as Hvs.
  { intros v. unfold vs. rewrite list_elem_of_omap. split.
    - intros (name & [? ?]%Hlevel & ?). eauto.
    - intros (name & ? & ? & ?). exists name. split; [|done]. by apply Hlevel. }
  assert (Forall (λ v, ∃ n, value_num v = Some n ∧
                            Z.of_nat (String.length v) = w) vs) as Hall.
  { apply Forall_forall. intros v (name & Hin & Hat & Hv)%Hvs.
    destruct (Hnum name Hin Hat) as (v' & n & Hv' & ? & ?).
    assert (v' = v) as -> by congruence. eauto. }
  assert (vs ≠ []) as Hvs_ne.
  { destruct (Hnum name0 Hin0 Hlevel0) as (v & n & Hv & _).
    assert (v ∈ vs) as Hin by (apply Hvs; eauto).
    intros Hnil. rewrite Hnil in Hin. by apply elem_of_nil in Hin. }
  rewrite (after_extraction_uniform prefix vs w); [|done|]; last first.
  { eapply Forall_impl; [exact Hall|]. by intros v (n & _ & ?). }
  rewrite (list_comp_ext _ _ vs sub_or_ses_value_to_int_lift), list_comp_lift.
  rewrite decide_True; last first.
  { eapply Forall_impl; [exact Hall|]. intros v (n & -> & _). by eexists. }
  rewrite bind_ret_l.
  set (nums0 := omap value_num vs).
  assert (∀ n, n ∈ nums0 ↔ used_number prefix all_folders n) as Hnums0.
  { intros n. unfold nums0, used_number. rewrite list_elem_of_omap. split.
    - intros (v & (name & ? & ? & ?)%Hvs & ?). eauto 10.
    - intros (name & v & ? & ? & ? & ?). exists v. split; [|done].
      apply Hvs. eauto. }
  assert (nums0 ≠ []) as Hnums0_ne.
  { destruct vs as [|v vs'] eqn:Hvs_eq; [done|].
    apply Forall_cons_1 in Hall as [(n & Hn & _) _].
    assert (n ∈ nums0) as Hin.
    { unfold nums0. apply list_elem_of_omap. exists v. split; [left|done]. }
    intros Hnil. rewrite Hnil in Hin. by apply elem_of_nil in Hin. }
  destruct (after_parsing_nonempty w nums0 Hnums0_ne) as (m & [Hm_in Hm_max] & ->).
  pose proof (merge_sort_Permutation Z.le nums0) as Hperm.
  exists (merge_sort Z.le nums0), m. split_and!.
  - apply Sorted_merge_sort. apply _.
  - intros n. by rewrite Hperm.
  - split; by rewrite Hperm.
  - reflexivity.
Qed.

(** ** [list(set(...))] *)

Lemma list_of_set_nil `{PySet} : list_of_set [] = [].
Proof.
  destruct (list_of_set []) as [|x l] eqn:Hl; [done|].
  assert (x ∈ list_of_set []) as Hin by (rewrite Hl; left).
  apply (proj1 (elem_of_list_of_set [] x)) in Hin. by apply elem_of_nil in Hin.
Qed.

(** Two folder lists with the same names give the same list up to order,
    whatever order each conversion picks. *)
Lemma list_of_set_Permutation (P P' : PySet) l l' :
  (∀ x, x ∈ l ↔ x ∈ l') →
  @list_of_set P l ≡ₚ @list_of_set P' l'.
Proof.
  intros Hsame. apply NoDup_Permutation; [apply list_of_set_NoDup..|].
  intros x. by rewrite !elem_of_list_of_set.
Qed.

Lemma used_number_same_names prefix names names' n :
  (∀ x, x ∈ names ↔ x ∈ names') →
  used_number prefix names n ↔ used_number prefix names' n.
Proof.
  intros Hsame. unfold used_number.
  split; intros (name & v & Hin & ?); exists name, v;
    (split; [by apply Hsame|done]).
Qed.

(** ** [get_next_sub_or_ses_number] *)

Section GettersFacts.
Context `{PySet} {Configs : Type}.
Variable search : Configs → option string → string → bool → FolderNames.

Lemma get_next_unfold cfg sub search_str return_with_prefix default :
  get_next_sub_or_ses_number search cfg sub search_str
    return_with_prefix default =
  (let* found := get_max_sub_or_ses_num_and_value_length
                   (list_of_set (reported search cfg sub search_str))
                   (level_of sub) (Some default) in
   ret (rendered (level_of sub) return_with_prefix (snd found) (fst found + 1))).
Proof.
  unfold get_next_sub_or_ses_number, reported, level_of, rendered.
  by destruct (get_max_sub_or_ses_num_and_value_length _ _ _)
    as [warned [e|[m w]]].
Qed.
End GettersFacts.

(** ** [str] and [zfill] *)

Lemma str_unsigned n : 0 ≤ n → unsigned (str n) ∧ str n ≠ "".
Proof.
  intros Hn. unfold str. destruct n as [|p|p]; [by split| |lia].
  cbn [Z.to_int NilZero.string_of_int].
  destruct (Pos.to_uint p); by split.
Qed.

Lemma length_zeros n : String.length (zeros n) = n.
Proof. induction n as [|n IH]; [done|]. simpl. by rewrite IH. Qed.

Lemma length_string_app (s t : string) :
  String.length (s +:+ t) = (String.length s + String.length t)%nat.
Proof. induction s as [|c s IH]; [done|]. simpl. by rewrite IH. Qed.

Lemma string_app_cons c (s t : string) : String c s +:+ t = String c (s +:+ t).
Proof. reflexivity. Qed.

Lemma string_app_empty_r (s : string) : s +:+ "" = s.
Proof.
  induction s as [|c s IH]; [done|]. by rewrite string_app_cons, IH.
Qed.

(** Shorter than the width: padded on the left up to the width. *)
Lemma zfill_pad width s :
  unsigned s → Z.of_nat (String.length s) < width →
  zfill width s = zeros (Z.to_nat (width - Z.of_nat (String.length s))) +:+ s ∧
  Z.of_nat (String.length (zfill width s)) = width.
Proof.
  intros Hs Hlt. unfold zfill.
  destruct (Z.to_nat (width - Z.of_nat (String.length s))) as [|k] eqn:Hfill;
    [lia|].
  assert (zeros (S k) +:+ s = zeros (S k) +:+ s ∧
          Z.of_nat (String.length (zeros (S k) +:+ s)) = width) as Hgoal.
  { split; [done|]. rewrite length_string_app, length_zeros. lia. }
  destruct s as [|c rest]; [|simpl in Hs; rewrite Hs; exact Hgoal].
  by rewrite string_app_empty_r in Hgoal |- *.
Qed.

(** As long as the width or longer: returned as it is. *)
Lemma zfill_keep width s :
  width ≤ Z.of_nat (String.length s) → zfill width s = s.
Proof.
  intros Hle. unfold zfill.
  by replace (Z.to_nat (width - Z.of_nat (String.length s))) with O by lia.
Qed.

Lemma value_num_nonneg value n : value_num value = Some n → 0 ≤ n.
Proof.
  unfold value_num. destruct (NilZero.uint_of_string value) as [d|]; [|done].
  intros [= <-]. unfold Z.of_uint. lia.
Qed.

Lemma used_number_nonneg prefix names n : used_number prefix names n → 0 ≤ n.
Proof. intros (? & v & _ & _ & _ & Hn). by eapply value_num_nonneg. Qed.

(** ** The suggestion when the numbers are well formed *)

Lemma get_next_ok `{PySet} {Configs : Type}
    (search : Configs → option string → string → bool → FolderNames)
    cfg sub search_str return_with_prefix default w :
  (∃ name, name ∈ reported search cfg sub search_str ∧
           at_level (level_of sub) name) →
  numbered_with_width (level_of sub) (reported search cfg sub search_str) w →
  ∃ nums m,
    Sorted Z.le nums ∧
    (∀ n, n ∈ nums ↔
          used_number (level_of sub) (reported search cfg sub search_str) n) ∧
    is_max m nums ∧
    get_next_sub_or_ses_number search cfg sub search_str
      return_with_prefix default =
      (gap_warnings nums,
       inr (rendered (level_of sub) return_with_prefix w (m + 1))).
Proof.
  intros (name0 & Hin0 & Hat0) Hnum.
  pose proof (elem_of_list_of_set (reported search cfg sub search_str)) as Hsame.
  destruct (get_max_ok (list_of_set (reported search cfg sub search_str))
              (level_of sub) (Some default) w)
    as (nums & m & Hsorted & Hnums & Hmax & Hget).
  - exists name0. split; [by apply Hsame|done].
  - intros name Hin. apply Hnum. by apply Hsame.
  - exists nums, m. split_and!; [done| |done|].
    + intros n. rewrite Hnums. by apply used_number_same_names.
    + rewrite get_next_unfold, Hget. unfold bind, ret.
      by rewrite app_nil_r.
Qed.

(** C1. Whenever at least one reported name is of the level and every
    such name carries a value of [w] characters that parses as an integer,
    [get_next_sub_or_ses_number] returns the largest of these numbers plus
    one, zero-filled to [w] and (when asked) put after the level prefix and
    a dash; the call never raises, and it warns exactly when the sorted
    numbers are not consecutive, the warning listing them. In particular,
    when the reported names are "sub-001", "sub-002" and "sub-004" (in any
    order, split in any way between local and central, repeated or not) the
    subject suggestion is "sub-005" and one warning lists [1, 2, 4]. *)
Theorem next_number_is_max_plus_one :
  (∀ (P : PySet) (Configs : Type)
     (search : Configs → option string → string → bool → FolderNames)
     cfg sub search_str return_with_prefix default w,
     (∃ name, name ∈ reported search cfg sub search_str ∧
              at_level (level_of sub) name) →
     numbered_with_width (level_of sub) (reported search cfg sub search_str) w →
     ∃ nums m,
       Sorted Z.le nums ∧
       (∀ n, n ∈ nums ↔
             used_number (level_of sub) (reported search cfg sub search_str) n) ∧
       is_max m nums ∧
       get_next_sub_or_ses_number search cfg sub search_str
         return_with_prefix default =
         (if integers_are_consecutive nums then []
          else [skipped_number_message nums],
          inr (if return_with_prefix
               then prefix_str (level_of sub) +:+ "-" +:+ zfill w (str (m + 1))
               else zfill w (str (m + 1))))) ∧
  (∀ (P : PySet) (Configs : Type)
     (search : Configs → option string → string → bool → FolderNames)
     cfg search_str default,
     (∀ name, name ∈ reported search cfg None search_str ↔
              name ∈ ["sub-001"; "sub-002"; "sub-004"]) →
     get_next_sub_or_ses_number search cfg None search_str true default =
       (["A subject number has been skipped, currently used subject numbers are: [1, 2, 4]"],
        inr "sub-005")).
Proof.
  split.
  - intros. by apply get_next_ok.
  - intros P Configs search cfg search_str default Hsame.
    rewrite get_next_unfold.
    rewrite (get_max_Permutation _ ["sub-001"; "sub-002"; "sub-004"]).
    + reflexivity.
    + apply NoDup_Permutation; [apply list_of_set_NoDup|by compute_done|].
      intros name. by rewrite elem_of_list_of_set.
Qed.

Lemma next_number_is_max_plus_one_witness :
  (∃ nums m,
     Sorted Z.le nums ∧
     (∀ n, n ∈ nums ↔
           used_number sub_level ["sub-0007"; "sub-0009"; "sub-0008"] n) ∧
     is_max m nums ∧
     get_next_sub_or_ses_number
       (fixed_search ["sub-0007"; "sub-0009"] ["sub-0008"])
       tt None "sub-*" true 3 =
     (if integers_are_consecutive nums then []
      else [skipped_number_message nums],
      inr ("sub" +:+ "-" +:+ zfill 4 (str (m + 1))))) ∧
  get_next_sub_or_ses_number
    (fixed_search ["sub-004"; "sub-001"] ["sub-002"; "sub-001"])
    tt None "sub-*" true 3 =
  (["A subject number has been skipped, currently used subject numbers are: [1, 2, 4]"],
   inr "sub-005").
Proof.
  split.
  - apply (proj1 next_number_is_max_plus_one remove_dups_PySet unit
             (fixed_search ["sub-0007"; "sub-0009"] ["sub-0008"])
             tt None "sub-*" true 3 4).
    + exists "sub-0007". split; [left|reflexivity].
    + check_each_name.
  - apply (proj2 next_number_is_max_plus_one remove_dups_PySet unit
             (fixed_search ["sub-004"; "sub-001"] ["sub-002"; "sub-001"])).
    intros name. cbn. rewrite !elem_of_cons. rewrite !elem_of_nil. tauto.
Defined.

(** ** Values of different lengths *)

Lemma get_max_mixed all_folders prefix default name1 name2 v1 v2 :
  (∀ name, name ∈ all_folders → at_level prefix name → is_Some (piece2 name)) →
  name1 ∈ all_folders → at_level prefix name1 → piece2 name1 = Some v1 →
  name2 ∈ all_folders → at_level prefix name2 → piece2 name2 = Some v2 →
  String.length v1 ≠ String.length v2 →
  get_max_sub_or_ses_num_and_value_length all_folders prefix default =
    raise_error (inconsistent_digits_message prefix).
Proof.
  intros Hvalues Hin1 Hat1 Hv1 Hin2 Hat2 Hv2 Hdiff.
  assert (all_folders ≠ []) as Hne by (intros ->; by apply elem_of_nil in Hin1).
  rewrite get_max_nonempty, get_values_lift, list_comp_lift by done.
  rewrite decide_True; last first.
  { apply Forall_forall. intros name [Hat Hin]%list_elem_of_filter. by apply Hvalues. }
  rewrite bind_ret_l. apply after_extraction_mixed.
  apply Nat.eqb_neq. intros (w & _ & Hall)%widths_uniform.
  rewrite Forall_forall in Hall.
  assert (∀ name v, name ∈ all_folders → at_level prefix name →
                    piece2 name = Some v → Z.of_nat (String.length v) = w) as Hw.
  { intros name v Hin Hat Hv. apply Hall, list_elem_of_omap. exists name.
    split; [|done]. by apply list_elem_of_filter. }
  pose proof (Hw _ _ Hin1 Hat1 Hv1). pose proof (Hw _ _ Hin2 Hat2 Hv2). lia.
Qed.

(** C2 as written fails: with "sub-01" and "sub-002" the call raises, but
    what [raise_error] raises is a [BaseException], not a
    [NeuroBlueprintError]. *)
Lemma mixed_widths_raise_BaseException :
  get_next_sub_or_ses_number (fixed_search ["sub-01"] ["sub-002"])
    tt None "sub-*" true 3 =
    ([], inl (BaseException
       "The number of value digits for the sub level are not consistent. Cannot suggest a sub number.")) ∧
  ¬ ∃ message,
      outcome (get_next_sub_or_ses_number (fixed_search ["sub-01"] ["sub-002"])
                 tt None "sub-*" true 3) = inl (NeuroBlueprintError message).
Proof. split; [reflexivity|]. by intros [message Hraised]. Qed.

(** C2, amended. Whenever every reported name of the level carries a value
    and two of these values differ in length, the call raises the
    [BaseException] of [raise_error] whose message says that the number of
    value digits of the level is not consistent; nothing is suggested and
    nothing is warned. *)
Theorem mixed_widths_raise :
  ∀ (P : PySet) (Configs : Type)
    (search : Configs → option string → string → bool → FolderNames)
    cfg sub search_str return_with_prefix default name1 name2 v1 v2,
    (∀ name, name ∈ reported search cfg sub search_str →
             at_level (level_of sub) name → is_Some (piece2 name)) →
    name1 ∈ reported search cfg sub search_str →
    at_level (level_of sub) name1 → piece2 name1 = Some v1 →
    name2 ∈ reported search cfg sub search_str →
    at_level (level_of sub) name2 → piece2 name2 = Some v2 →
    String.length v1 ≠ String.length v2 →
    get_next_sub_or_ses_number search cfg sub search_str
      return_with_prefix default =
      ([], inl (BaseException
         ("The number of value digits for the " +:+ prefix_str (level_of sub)
          +:+ " level are not consistent. Cannot suggest a "
          +:+ prefix_str (level_of sub) +:+ " number."))).
Proof.
  intros P Configs search cfg sub search_str return_with_prefix default
    name1 name2 v1 v2 Hvalues Hin1 Hat1 Hv1 Hin2 Hat2 Hv2 Hdiff.
  rewrite get_next_unfold.
  rewrite (get_max_mixed _ _ _ name1 name2 v1 v2);
    [reflexivity| |by apply elem_of_list_of_set|done|done
     |by apply elem_of_list_of_set|done..].
  intros name Hin. apply Hvalues.
  by apply (proj1 (elem_of_list_of_set _ _)) in Hin.
Qed.

Lemma mixed_widths_raise_witness :
  get_next_sub_or_ses_number
    (fixed_search ["ses-01"; "ses-002_date-20240101"] ["notes"])
    tt (Some "sub-001") "ses-*" true 3 =
    ([], inl (BaseException
       "The number of value digits for the ses level are not consistent. Cannot suggest a ses number.")).
Proof.
  apply (mixed_widths_raise remove_dups_PySet unit
           (fixed_search ["ses-01"; "ses-002_date-20240101"] ["notes"])
           tt (Some "sub-001") "ses-*" true 3
           "ses-01" "ses-002_date-20240101" "01" "002").
  - intros name Hin Hat.
    apply elem_of_cons in Hin as [->|Hin]; [by exists "01"|].
    apply elem_of_cons in Hin as [->|Hin]; [by exists "002"|].
    apply elem_of_cons in Hin as [->|Hin]; [discriminate Hat|].
    by apply elem_of_nil in Hin.
  - left.
  - reflexivity.
  - reflexivity.
  - right; left.
  - reflexivity.
  - reflexivity.
  - simpl. lia.
Defined.

(** ** No subject or session yet *)







(** C10. On an empty folder list an integer default is returned as the
    digit width, with 0 as the largest number, and the assertion does not
    fire; with the declared default [None] the assertion fires and no
    width is made up. *)
Theorem empty_list_needs_int_default :
  ∀ prefix,
    (∀ default_num_value_digits,
       get_max_sub_or_ses_num_and_value_length
         [] prefix (Some default_num_value_digits) =
         ([], inr (0, default_num_value_digits))) ∧
    get_max_sub_or_ses_num_and_value_length [] prefix None =
      ([], inl (AssertionError "`default_num_value_digits` must be int`")).
Proof. intros prefix. split; reflexivity. Qed.

(** C9. The level is chosen by the truthiness of [sub]: with [None] and
    with the empty string the call is the subject-level suggestion over
    the reported names, and with any non-empty string it is the
    session-level one. *)
Theorem level_follows_truthiness :
  ∀ (P : PySet) (Configs : Type)
    (search : Configs → option string → string → bool → FolderNames)
    cfg search_str return_with_prefix default,
    get_next_sub_or_ses_number search cfg None search_str
      return_with_prefix default =
      suggestion_at sub_level (reported search cfg None search_str)
        return_with_prefix default ∧
    get_next_sub_or_ses_number search cfg (Some "") search_str
      return_with_prefix default =
      suggestion_at sub_level (reported search cfg (Some "") search_str)
        return_with_prefix default ∧
    ∀ c rest,
      get_next_sub_or_ses_number search cfg (Some (String c rest)) search_str
        return_with_prefix default =
        suggestion_at ses_level
          (reported search cfg (Some (String c rest)) search_str)
          return_with_prefix default.
Proof.
  intros. split_and!; intros; by rewrite get_next_unfold.
Qed.

(** The same project seen through the three kinds of [sub]. *)
Example level_follows_truthiness_run :
  let search := fixed_search ["sub-001"; "ses-007"] [] in
  get_next_sub_or_ses_number search tt None "*" true 3 = ([], inr "sub-002") ∧
  get_next_sub_or_ses_number search tt (Some "") "*" true 3
    = ([], inr "sub-002") ∧
  get_next_sub_or_ses_number search tt (Some "sub-001") "*" true 3
    = ([], inr "ses-008").
Proof. by split_and!. Qed.

(** ** Only the set of names counts *)

(** C5. The suggestion, its warnings and its errors are determined by the
    set of reported names: two searches reporting the same names, in
    whatever order, however split between local and central and however
    often repeated, and whatever order the set conversion picks, lead to
    the same result. *)
Theorem suggestion_depends_on_name_set :
  ∀ (P P' : PySet) (Configs Configs' : Type)
    (search : Configs → option string → string → bool → FolderNames)
    (search' : Configs' → option string → string → bool → FolderNames)
    cfg cfg' sub search_str search_str' return_with_prefix default,
    (∀ name, name ∈ reported search cfg sub search_str ↔
             name ∈ reported search' cfg' sub search_str') →
    @get_next_sub_or_ses_number P Configs search cfg sub search_str
      return_with_prefix default =
    @get_next_sub_or_ses_number P' Configs' search' cfg' sub search_str'
      return_with_prefix default.
Proof.
  intros P P' Configs Configs' search search' cfg cfg' sub
    search_str search_str' return_with_prefix default Hsame.
  rewrite !get_next_unfold.
  by rewrite (get_max_Permutation _ _ _ _
                (list_of_set_Permutation P P' _ _ Hsame)).
Qed.

Lemma suggestion_depends_on_name_set_witness :
  @get_next_sub_or_ses_number remove_dups_PySet unit
    (fixed_search ["sub-02"; "sub-05"; "sub-03"] ["sub-04"])
    tt None "sub-*" true 3 =
  @get_next_sub_or_ses_number reversed_PySet unit
    (fixed_search ["sub-04"; "sub-03"; "sub-03"] ["sub-05"; "sub-02"; "sub-04"])
    tt None "sub-*" true 3.
Proof.
  apply suggestion_depends_on_name_set.
  intros name. cbn. rewrite !elem_of_cons, !elem_of_nil. tauto.
Defined.

(** ** The width of the suggestion *)

(** C4. With [w] the common length of the values, the digits of the
    suggestion are the decimal digits of the largest number plus one,
    filled with zeros on the left up to exactly [w] characters when they
    are fewer, and left as they are, longer than [w], when they are more:
    the width neither grows nor cuts. With "sub-999" the suggestion is
    "sub-1000". *)
Theorem suggestion_keeps_observed_width :
  (∀ (P : PySet) (Configs : Type)
     (search : Configs → option string → string → bool → FolderNames)
     cfg sub search_str return_with_prefix default w,
     (∃ name, name ∈ reported search cfg sub search_str ∧
              at_level (level_of sub) name) →
     numbered_with_width (level_of sub) (reported search cfg sub search_str) w →
     ∃ m digits,
       used_number (level_of sub) (reported search cfg sub search_str) m ∧
       (∀ n, used_number (level_of sub) (reported search cfg sub search_str) n →
             n ≤ m) ∧
       outcome (get_next_sub_or_ses_number search cfg sub search_str
                  return_with_prefix default) =
         inr (if return_with_prefix
              then prefix_str (level_of sub) +:+ "-" +:+ digits else digits) ∧
       (Z.of_nat (String.length (str (m + 1))) ≤ w →
          digits = zeros (Z.to_nat (w - Z.of_nat (String.length (str (m + 1)))))
                   +:+ str (m + 1) ∧
          Z.of_nat (String.length digits) = w) ∧
       (w < Z.of_nat (String.length (str (m + 1))) → digits = str (m + 1))) ∧
  (∀ (P : PySet) (Configs : Type)
     (search : Configs → option string → string → bool → FolderNames)
     cfg search_str default,
     (∀ name, name ∈ reported search cfg None search_str ↔ name = "sub-999") →
     get_next_sub_or_ses_number search cfg None search_str true default =
       ([], inr "sub-1000")).
Proof.
  split.
  - intros P Configs search cfg sub search_str return_with_prefix default w
      Hex Hnum.
    destruct (get_next_ok search cfg sub search_str return_with_prefix
                default w Hex Hnum)
      as (nums & m & _ & Hnums & [Hm_in Hm_max] & Hnext).
    exists m, (zfill w (str (m + 1))). split_and!.
    + by apply Hnums.
    + intros n Hn%Hnums. rewrite Forall_forall in Hm_max. by apply Hm_max.
    + by rewrite Hnext.
    + intros Hle.
      assert (0 ≤ m + 1) as Hpos.
      { apply Hnums, used_number_nonneg in Hm_in. lia. }
      destruct (str_unsigned (m + 1) Hpos) as [Hunsigned _].
      destruct (decide (Z.of_nat (String.length (str (m + 1))) = w))
        as [Heq|Hneq].
      * rewrite zfill_keep by lia.
        replace (Z.to_nat (w - Z.of_nat (String.length (str (m + 1)))))
          with O by lia.
        by split.
      * apply zfill_pad; [done|lia].
    + intros Hlt. apply zfill_keep. lia.
  - intros P Configs search cfg search_str default Hsame.
    rewrite get_next_unfold.
    rewrite (get_max_Permutation _ ["sub-999"]); [reflexivity|].
    apply NoDup_Permutation; [apply list_of_set_NoDup|by compute_done|].
    intros name. by rewrite elem_of_list_of_set, Hsame, list_elem_of_singleton.
Qed.

Lemma suggestion_keeps_observed_width_witness :
  (∃ m digits,
     used_number sub_level ["sub-0041"; "sub-0007"] m ∧
     (∀ n, used_number sub_level ["sub-0041"; "sub-0007"] n → n ≤ m) ∧
     outcome (get_next_sub_or_ses_number
                (fixed_search ["sub-0041"] ["sub-0007"]) tt None "sub-*" true 3) =
       inr ("sub" +:+ "-" +:+ digits) ∧
     (Z.of_nat (String.length (str (m + 1))) ≤ 4 →
        digits = zeros (Z.to_nat (4 - Z.of_nat (String.length (str (m + 1)))))
                 +:+ str (m + 1) ∧
        Z.of_nat (String.length digits) = 4) ∧
     (4 < Z.of_nat (String.length (str (m + 1))) → digits = str (m + 1))) ∧
  get_next_sub_or_ses_number (fixed_search [] ["sub-999"; "sub-999"])
    tt None "sub-*" true 3 = ([], inr "sub-1000").
Proof.
  split.
  - apply (proj1 suggestion_keeps_observed_width remove_dups_PySet unit
             (fixed_search ["sub-0041"] ["sub-0007"]) tt None "sub-*" true 3 4).
    + exists "sub-0041". split; [left|reflexivity].
    + check_each_name.
  - apply (proj2 suggestion_keeps_observed_width remove_dups_PySet unit
             (fixed_search [] ["sub-999"; "sub-999"]) tt "sub-*" 3).
    intros name. cbn. rewrite !elem_of_cons, !elem_of_nil. tauto.
Defined.

(** ** The validator *)

Lemma for_each_first_raise {A} (f : A → M unit) (hit : A → Prop)
    `{∀ x, Decision (hit x)} (e : A → exn) xs :
  (∀ x, hit x → f x = raise (e x)) → (∀ x, ¬ hit x → f x = ret tt) →
  (∃ x, x ∈ xs ∧ hit x) →
  ∃ x, x ∈ xs ∧ hit x ∧ for_each f xs = raise (e x).
Proof.
  intros Hhit Hmiss. induction xs as [|y xs IH]; intros (x & Hin & Hx).
  { by apply elem_of_nil in Hin. }
  destruct (decide (hit y)) as [Hy|Hy].
  - exists y. split_and!; [left|done|]. cbn [for_each]. by rewrite Hhit.
  - destruct IH as (z & Hz_in & Hz & Hz_raise).
    + apply elem_of_cons in Hin as [->|Hin]; [done|eauto].
    + exists z. split_and!; [by right|done|].
      cbn [for_each]. by rewrite Hmiss, bind_ret_l.
Qed.

(** C8. With "sub-001" among the existing subject names, validating the
    candidate "sub-001_id-a" in error mode raises a [NeuroBlueprintError]
    whose message names the candidate and an existing name of the same
    subject value but other tokens; when "sub-001" is the only existing
    name with the value "001", as in a well-formed NameSet, that name is
    "sub-001". The existing names come back as they were. *)
Theorem duplicate_subject_is_rejected :
  (∀ (width_message : Prefix → string → string) (existing_names : list string),
     "sub-001" ∈ existing_names →
     ∃ conflicting,
       conflicting ∈ existing_names ∧
       level_value sub_level conflicting = Some "001" ∧
       tokens conflicting ≠ tokens "sub-001_id-a" ∧
       validate_names width_message ["sub-001_id-a"] existing_names
         sub_level error_mode =
         (([], inl (NeuroBlueprintError
             ("A sub already exists with the same sub id as sub-001_id-a. The existing folder is "
              +:+ conflicting))),
          existing_names)) ∧
  (∀ (width_message : Prefix → string → string) (existing_names : list string),
     "sub-001" ∈ existing_names →
     (∀ name, name ∈ existing_names →
              level_value sub_level name = Some "001" → name = "sub-001") →
     validate_names width_message ["sub-001_id-a"] existing_names
       sub_level error_mode =
       (([], inl (NeuroBlueprintError
           "A sub already exists with the same sub id as sub-001_id-a. The existing folder is sub-001")),
        existing_names)).
Proof.
  assert (∀ (width_message : Prefix → string → string) existing_names,
    "sub-001" ∈ existing_names →
    ∃ conflicting,
      conflicting ∈ existing_names ∧
      level_value sub_level conflicting = Some "001" ∧
      tokens conflicting ≠ tokens "sub-001_id-a" ∧
      validate_names width_message ["sub-001_id-a"] existing_names
        sub_level error_mode =
        (([], inl (NeuroBlueprintError
            (duplicate_message sub_level "sub-001_id-a" conflicting))),
         existing_names)) as Hgeneral.
  { intros width_message existing_names Hin.
    destruct (for_each_first_raise
                (check_duplicate_entity error_mode sub_level "sub-001_id-a")
                (is_duplicate_entity sub_level "sub-001_id-a")
                (λ existing, NeuroBlueprintError
                   (duplicate_message sub_level "sub-001_id-a" existing))
                existing_names)
      as (conflicting & Hc_in & (_ & Hc_value & Hc_tokens) & Hraise).
    - intros existing Hdup. unfold check_duplicate_entity.
      by rewrite decide_True.
    - intros existing Hdup. unfold check_duplicate_entity.
      by rewrite decide_False.
    - exists "sub-001". split; [done|]. by split_and!.
    - exists conflicting. split_and!; [done|done|done|].
      unfold validate_names, validate_name. cbn [for_each].
      by rewrite Hraise. }
  split; [exact Hgeneral|].
  intros width_message existing_names Hin Honly.
  destruct (Hgeneral width_message existing_names Hin)
    as (conflicting & Hc_in & Hc_value & _ & ->).
  by rewrite (Honly conflicting Hc_in Hc_value).
Qed.

Lemma duplicate_subject_is_rejected_witness :
  validate_names (λ _ _, "digit widths differ")
    ["sub-001_id-a"] ["sub-002"; "sub-001"; "sub-003_id-b"]
    sub_level error_mode =
    (([], inl (NeuroBlueprintError
        "A sub already exists with the same sub id as sub-001_id-a. The existing folder is sub-001")),
     ["sub-002"; "sub-001"; "sub-003_id-b"]).
Proof.
  apply (proj2 duplicate_subject_is_rejected).
  - right; left.
  - intros name Hin Hvalue.
    repeat (apply elem_of_cons in Hin as [->|Hin]; [done|]).
    by apply elem_of_nil in Hin.
Defined.

(** In warn mode the same project only collects warnings. *)
Example duplicate_subject_is_warned :
  validate_names (λ _ new, "digit widths differ for " +:+ new)
    ["sub-001_id-a"; "sub-04"] ["sub-002"; "sub-001"] sub_level warn_mode =
    ((["A sub already exists with the same sub id as sub-001_id-a. The existing folder is sub-001";
       "digit widths differ for sub-04"], inr tt),
     ["sub-002"; "sub-001"]).
Proof. reflexivity. Qed.

(** ** Facts about the string and list primitives of the formatter *)

Lemma dedup_elem_of l x : x ∈ dedup l ↔ x ∈ l.
Proof.
  induction l as [|y l IH]; [done|]. cbn [dedup].
  rewrite !elem_of_cons, list_elem_of_filter, IH.
  destruct (decide (x = y)); tauto.
Qed.

Lemma dedup_NoDup l : NoDup (dedup l).
Proof.
  induction l as [|y l IH]; cbn [dedup]; constructor.
  - rewrite list_elem_of_filter. tauto.
  - by apply NoDup_filter.
Qed.

Lemma dedup_id l : NoDup l → dedup l = l.
Proof.
  induction 1 as [|x l Hx Hl IH]; [done|]. cbn [dedup]. rewrite IH. f_equal.
  clear IH Hl. induction l as [|y l IH]; [done|].
  rewrite not_elem_of_cons in Hx. destruct Hx as [Hxy Hx].
  rewrite filter_cons_True by done. f_equal. by apply IH.
Qed.

Lemma split_by_none p s : has_char p s = false → split_by p s = [s].
Proof.
  induction s as [|c s IH]; [done|]. cbn [has_char split_by].
  intros [Hc Hs]%orb_false_elim. by rewrite Hc, IH.
Qed.

Lemma has_char_app p (s t : string) :
  has_char p (s +:+ t) = has_char p s || has_char p t.
Proof.
  induction s as [|c s IH]; [done|].
  rewrite string_app_cons. cbn [has_char]. by rewrite IH, orb_assoc.
Qed.

Lemma has_char_weaken (p q : ascii → bool) s :
  (∀ c, q c = true → p c = true) → has_char p s = false → has_char q s = false.
Proof.
  intros Hpq. induction s as [|c s IH]; [done|]. cbn [has_char].
  intros [Hc Hs]%orb_false_elim. rewrite IH by done.
  destruct (q c) eqn:Hq; [|done]. by rewrite (Hpq c Hq) in Hc.
Qed.

Lemma prefix_app (p s : string) : String.prefix p (p +:+ s) = true.
Proof.
  induction p as [|c p IH]; [by destruct s|].
  rewrite string_app_cons. cbn [String.prefix].
  by destruct (ascii_dec c c).
Qed.

Lemma string_drop_app (p s : string) : string_drop (String.length p) (p +:+ s) = s.
Proof. induction p as [|c p IH]; [by destruct s|]. done. Qed.

Lemma span_token_others s : at_underscore (span_token s).2.
Proof.
  induction s as [|c s IH]; [done|]. cbn [span_token].
  destruct (Ascii.eqb c "_") eqn:Hc; [done|].
  by destruct (span_token s).
Qed.

Lemma span_token_app (token others : string) :
  has_char (λ c, Ascii.eqb c "_") token = false → at_underscore others →
  span_token (token +:+ others) = (token, others).
Proof.
  intros Htoken Hothers. induction token as [|c token IH].
  - destruct others as [|c others]; [done|]. simpl in Hothers.
    change ("" +:+ String c others) with (String c others).
    cbn [span_token]. by rewrite Hothers.
  - cbn [has_char] in Htoken. apply orb_false_elim in Htoken as [Hc Htoken].
    rewrite string_app_cons. cbn [span_token]. cbn beta in Hc.
    by rewrite Hc, IH.
Qed.

Lemma split_at_tag_none s :
  has_char (λ c, Ascii.eqb c "@") s = false → split_at_tag range_tag s = None.
Proof.
  induction s as [|c s IH]; [done|]. cbn [has_char].
  intros [Hc Hs]%orb_false_elim. cbn [split_at_tag].
  rewrite IH by done.
  assert (String.prefix range_tag (String c s) = false) as ->; [|done].
  unfold range_tag. cbn [String.prefix].
  destruct (ascii_dec "@" c) as [<-|]; [by rewrite Ascii.eqb_refl in Hc|done].
Qed.

Lemma digits_only_app (s t : string) :
  digits_only s → digits_only t → digits_only (s +:+ t).
Proof. unfold digits_only. intros Hs Ht. by rewrite has_char_app, Hs, Ht. Qed.

Lemma digits_only_zeros n : digits_only (zeros n).
Proof. induction n as [|n IH]; [done|]. exact IH. Qed.

Lemma digits_only_uint d : digits_only (NilEmpty.string_of_uint d).
Proof. induction d; try done; exact IHd. Qed.

Lemma digits_only_str n : 0 ≤ n → digits_only (str n).
Proof.
  intros Hn. unfold str. destruct n as [|p|p]; [done| |lia].
  cbn [Z.to_int NilZero.string_of_int]. unfold NilZero.string_of_uint.
  destruct (Pos.to_uint p) eqn:Hp; try done; rewrite <- Hp;
    apply digits_only_uint.
Qed.

Lemma zfill_digits width n : 0 ≤ n → digits_only (zfill width (str n)).
Proof.
  intros Hn. destruct (str_unsigned n Hn) as [Hunsigned _].
  destruct (decide (Z.of_nat (String.length (str n)) < width)) as [Hlt|Hge].
  - destruct (zfill_pad width (str n) Hunsigned Hlt) as [-> _].
    apply digits_only_app; [apply digits_only_zeros|by apply digits_only_str].
  - rewrite zfill_keep by lia. by apply digits_only_str.
Qed.

Lemma digits_only_no_char (c0 : ascii) s :
  is_digit c0 = false → digits_only s → has_char (λ c, Ascii.eqb c c0) s = false.
Proof.
  intros Hc0. apply has_char_weaken. intros c ->%Ascii.eqb_eq.
  by rewrite Hc0.
Qed.

Lemma bind_inr_inv {A B} (m : M A) (k : A → M B) warned b :
  bind m k = (warned, inr b) →
  ∃ warned1 a warned2,
    m = (warned1, inr a) ∧ k a = (warned2, inr b) ∧
    warned = (warned1 ++ warned2)%list.
Proof.
  destruct m as [warned1 [e|a]]; [done|]. cbn [bind].
  destruct (k a) as [warned2 r] eqn:Hk. intros [= <- ->]. eauto 10.
Qed.

Lemma for_each_inr_inv {A} (f : A → M unit) xs warned u :
  for_each f xs = (warned, inr u) →
  ∀ x, x ∈ xs → ∃ warned', f x = (warned', inr tt).
Proof.
  revert warned. induction xs as [|y xs IH]; intros warned Hrun x Hin.
  { by apply elem_of_nil in Hin. }
  cbn [for_each] in Hrun.
  apply bind_inr_inv in Hrun as (warned1 & [] & warned2 & Hy & Hrest & _).
  apply elem_of_cons in Hin as [->|Hin]; [eauto|]. by eapply IH.
Qed.

Lemma Z_of_uint_nonneg d : 0 ≤ Z.of_uint d.
Proof. unfold Z.of_uint. lia. Qed.

Lemma inclusive_range_elem lo hi n : n ∈ inclusive_range lo hi → lo ≤ n.
Proof.
  unfold inclusive_range. intros (k & <- & _)%list_elem_of_In%in_map_iff. lia.
Qed.

(** ** Facts about the formatter *)

Section FormatterFacts.
Variable canonical_prefix : Prefix → string.
Variable substitute_dynamic_tags : string → string.
Variable structure_violation : Prefix → string → option string.

Lemma add_prefix_has_prefix prefix raw :
  String.prefix prefix (add_prefix substitute_dynamic_tags prefix raw) = true.
Proof.
  unfold add_prefix.
  destruct (String.prefix prefix (substitute_dynamic_tags raw)) eqn:Hp;
    [done|apply prefix_app].
Qed.

(** A name that comes out of the range step is left alone by it. *)
Lemma expand_range_output prefix name warned names :
  String.prefix prefix name = true →
  expand_range prefix name = (warned, inr names) →
  warned = [] ∧
  ∀ final, final ∈ names →
    String.prefix prefix final = true ∧ expand_range prefix final = ret [final].
Proof.
  intros Hprefix. unfold expand_range at 1.
  pose proof (span_token_others (string_drop (String.length prefix) name))
    as Hothers.
  destruct (span_token (string_drop (String.length prefix) name))
    as [value others] eqn:Hspan.
  destruct (split_at_tag range_tag value) as [[first last]|] eqn:Htag.
  - destruct (NilZero.uint_of_string first) as [lo|]; [|done].
    destruct (NilZero.uint_of_string last) as [hi|]; [|done].
    destruct (Z.of_uint hi <? Z.of_uint lo); [done|].
    intros [= <- <-]. split; [done|].
    intros final (n & <- & Hn)%list_elem_of_In%in_map_iff.
    apply list_elem_of_In, inclusive_range_elem in Hn.
    pose proof (Z_of_uint_nonneg lo).
    assert (digits_only (zfill (Z.max (Z.of_nat (String.length first))
                                      (Z.of_nat (String.length last))) (str n)))
      as Hdigits by (apply zfill_digits; lia).
    split; [apply prefix_app|].
    unfold expand_range. rewrite string_drop_app, span_token_app; [| |done].
    + rewrite split_at_tag_none; [done|]. by apply digits_only_no_char.
    + by apply digits_only_no_char.
  - intros [= <- <-]. split; [done|].
    intros final ->%list_elem_of_singleton. split; [done|].
    unfold expand_range. by rewrite Hspan, Htag.
Qed.

Lemma expand_all_inv prefix prefixed warned expanded :
  (∀ pair, pair ∈ prefixed → String.prefix prefix pair.2 = true) →
  expand_all prefix prefixed = (warned, inr expanded) →
  warned = [] ∧
  ∀ pair, pair ∈ concat expanded →
    String.prefix prefix pair.2 = true ∧
    expand_range prefix pair.2 = ret [pair.2].
Proof.
  unfold expand_all. revert warned expanded.
  induction prefixed as [|[raw name] prefixed IH];
    intros warned expanded Hprefixed Hrun.
  { injection Hrun as <- <-. split; [done|]. intros pair Hin.
    by apply elem_of_nil in Hin. }
  cbn [list_comp] in Hrun.
  apply bind_inr_inv in Hrun as (w1 & pairs & w2 & Hhead & Hrun & ->).
  apply bind_inr_inv in Hrun as (w3 & rest & w4 & Hrest & Hret & ->).
  injection Hret as <- <-.
  apply bind_inr_inv in Hhead as (w5 & names & w6 & Hexpand & Hret & ->).
  injection Hret as <- <-.
  destruct (expand_range_output prefix name w5 names) as [-> Hnames];
    [apply (Hprefixed (raw, name)); left|done|].
  destruct (IH w3 rest) as [-> Hothers]; [|done|].
  { intros pair Hin. apply Hprefixed. by right. }
  split; [done|]. intros pair. cbn [concat]. rewrite elem_of_app.
  intros [(final & <- & Hfinal)%list_elem_of_In%in_map_iff|Hin].
  - apply Hnames. by apply list_elem_of_In.
  - by apply Hothers.
Qed.

Lemma split_names_plain names : Forall (plain substitute_dynamic_tags) names → split_names names = names.
Proof.
  induction 1 as [|name names (Hstrip & Hcomma & _) _ IH]; [done|].
  unfold split_names in *. cbn [flat_map].
  by rewrite split_by_none, IH; [cbn [map app]; rewrite Hstrip|].
Qed.

Lemma expand_all_settled level names :
  Forall (settled canonical_prefix substitute_dynamic_tags
            structure_violation level) names →
  expand_all (canonical_prefix level)
    (map (λ raw, (raw, add_prefix substitute_dynamic_tags
                         (canonical_prefix level) raw)) names) =
  ret (map (λ name, [(name, name)]) names).
Proof.
  unfold expand_all.
  induction 1 as [|name names ((_ & _ & Hsubst) & Hprefix & Hexpand & _) _ IH];
    [done|].
  cbn [map list_comp]. rewrite IH. unfold add_prefix.
  by rewrite Hsubst, Hprefix, Hexpand, !bind_ret_l.
Qed.

Lemma check_structure_settled level names :
  Forall (settled canonical_prefix substitute_dynamic_tags
            structure_violation level) names →
  for_each (λ '(_, name), check_structure structure_violation level name)
           (map (λ name : string, (name, name)) names) = ret tt.
Proof.
  induction 1 as [|name names (_ & _ & _ & Hrule) _ IH]; [done|].
  cbn [map for_each]. unfold check_structure at 1.
  by rewrite Hrule, bind_ret_l.
Qed.

Lemma same_raw_same_name (names : list string) :
  same_name_from_different_raw (map (λ name, (name, name)) names) = false.
Proof.
  apply not_true_is_false. unfold same_name_from_different_raw.
  intros ([raw name] & Hin & ([raw' name'] & Hin' & Hboth)%existsb_exists)
    %existsb_exists.
  apply andb_true_iff in Hboth as [Hname%bool_decide_eq_true Hraw%negb_true_iff].
  apply bool_decide_eq_false in Hraw.
  apply in_map_iff in Hin as (? & [= <- <-] & _).
  apply in_map_iff in Hin' as (? & [= <- <-] & _). done.
Qed.

(** Settled names are a fixed point of the formatter. *)
Lemma format_names_settled level names :
  Forall (settled canonical_prefix substitute_dynamic_tags
            structure_violation level) names → NoDup names →
  format_names canonical_prefix substitute_dynamic_tags structure_violation
    names level = ret names.
Proof.
  intros Hsettled Hnodup. unfold format_names.
  rewrite split_names_plain by (eapply Forall_impl; [done|by intros ? [? _]]).
  rewrite expand_all_settled, bind_ret_l by done.
  assert (concat (map (λ name : string, [(name, name)]) names) =
          map (λ name, (name, name)) names) as ->.
  { clear. induction names as [|name names IH]; [done|].
    cbn [map concat app]. by rewrite IH. }
  rewrite check_structure_settled, bind_ret_l, same_raw_same_name by done.
  rewrite map_map. cbn [snd]. by rewrite map_id, dedup_id.
Qed.

(** What a successful run of the formatter has established. *)
Lemma format_names_output raw_input level warned names :
  format_names canonical_prefix substitute_dynamic_tags structure_violation
    raw_input level = (warned, inr names) →
  warned = [] ∧ NoDup names ∧
  ∀ name, name ∈ names →
    String.prefix (canonical_prefix level) name = true ∧
    expand_range (canonical_prefix level) name = ret [name] ∧
    structure_violation level name = None.
Proof.
  unfold format_names.
  intros (w1 & expanded & w2 & Hexpand & Hrun & ->)%bind_inr_inv.
  apply bind_inr_inv in Hrun as (w3 & [] & w4 & Hcheck & Hrun & ->).
  destruct (same_name_from_different_raw (concat expanded)); [done|].
  injection Hrun as <- <-.
  apply expand_all_inv in Hexpand as [-> Hexpanded]; last first.
  { intros pair (raw & <- & _)%list_elem_of_In%in_map_iff.
    apply add_prefix_has_prefix. }
  assert (∀ pair, pair ∈ concat expanded →
                  structure_violation level pair.2 = None) as Hrules.
  { intros [raw name] Hin.
    destruct (for_each_inr_inv _ _ _ _ Hcheck _ Hin) as [w Hone].
    unfold check_structure in Hone. cbn [snd].
    by destruct (structure_violation level name). }
  assert (w3 = []) as ->.
  { clear -Hcheck. revert w3 Hcheck.
    induction (concat expanded) as [|[raw name] pairs IH]; intros w3 Hcheck.
    - by injection Hcheck as <-.
    - cbn [for_each] in Hcheck.
      apply bind_inr_inv in Hcheck as (w1 & [] & w2 & Hone & Hrest & ->).
      rewrite (IH w2 Hrest). unfold check_structure in Hone.
      destruct (structure_violation level name); [done|].
      by injection Hone as <-. }
  split; [done|]. split; [apply dedup_NoDup|].
  intros name [raw Hin]%dedup_elem_of%list_elem_of_In%in_map_iff.
  destruct Hin as [<- Hin%list_elem_of_In]. destruct raw as [raw name].
  destruct (Hexpanded _ Hin). split_and!; [done..|]. by apply (Hrules _ Hin).
Qed.
End FormatterFacts.

(** C7. Whenever formatting succeeds and the names it returns carry no
    comma, no outer blank and no dynamic tag any more, formatting these
    names returns them unchanged. A single raw name without comma, outer
    blank, dynamic tag or range tag that lacks the canonical prefix and is
    structurally valid once prefixed is returned with the prefix in front
    of it, the whole input being taken as the value; formatting that
    result again returns it unchanged. *)
Theorem formatting_is_idempotent :
  ∀ (canonical_prefix : Prefix → string)
    (substitute_dynamic_tags : string → string)
    (structure_violation : Prefix → string → option string) (level : Prefix),
    (∀ raw_input warned names,
       format_names canonical_prefix substitute_dynamic_tags
         structure_violation raw_input level = (warned, inr names) →
       (∀ name, name ∈ names → plain substitute_dynamic_tags name) →
       format_names canonical_prefix substitute_dynamic_tags
         structure_violation names level = ([], inr names)) ∧
    (∀ raw,
       plain substitute_dynamic_tags raw →
       String.prefix (canonical_prefix level) raw = false →
       split_at_tag range_tag (span_token raw).1 = None →
       structure_violation level (canonical_prefix level +:+ raw) = None →
       format_names canonical_prefix substitute_dynamic_tags
         structure_violation [raw] level =
         ([], inr [canonical_prefix level +:+ raw]) ∧
       (plain substitute_dynamic_tags (canonical_prefix level +:+ raw) →
        format_names canonical_prefix substitute_dynamic_tags
          structure_violation [canonical_prefix level +:+ raw] level =
          ([], inr [canonical_prefix level +:+ raw]))).
Proof.
  intros canonical_prefix substitute_dynamic_tags structure_violation level.
  assert (∀ raw_input warned names,
    format_names canonical_prefix substitute_dynamic_tags
      structure_violation raw_input level = (warned, inr names) →
    (∀ name, name ∈ names → plain substitute_dynamic_tags name) →
    format_names canonical_prefix substitute_dynamic_tags
      structure_violation names level = ([], inr names)) as Hagain.
  { intros raw_input warned names Hrun Hplain.
    apply format_names_output in Hrun as (_ & Hnodup & Hnames).
    apply format_names_settled; [|done].
    apply Forall_forall. intros name Hin. split; [by apply Hplain|].
    by apply Hnames. }
  split; [exact Hagain|].
  intros raw Hplain Hlacks Hrange Hvalid.
  assert (format_names canonical_prefix substitute_dynamic_tags
            structure_violation [raw] level =
          ([], inr [canonical_prefix level +:+ raw])) as Hfirst.
  { unfold format_names.
    rewrite (split_names_plain substitute_dynamic_tags) by (by constructor).
    destruct Hplain as (_ & _ & Hsubst).
    cbn [map expand_all list_comp]. unfold add_prefix.
    rewrite Hsubst, Hlacks. unfold expand_range.
    rewrite string_drop_app.
    destruct (span_token raw) as [value others]. cbn [fst] in Hrange.
    rewrite Hrange, !bind_ret_l. cbn [map concat app for_each].
    unfold check_structure. rewrite Hvalid, !bind_ret_l.
    cbn [same_name_from_different_raw existsb].
    rewrite !bool_decide_eq_true_2 by done. reflexivity. }
  split; [exact Hfirst|]. intros Hplain'.
  apply (Hagain [raw] []); [exact Hfirst|].
  by intros name ->%list_elem_of_singleton.
Qed.

Lemma formatting_is_idempotent_witness :
  format_names default_prefix (substitute_with noon) structure_rule
    ["sub-001_id-x"; "sub-005_date-20240131"; "sub-006_date-20240131";
     "sub-007"] sub_level =
    ([], inr ["sub-001_id-x"; "sub-005_date-20240131"; "sub-006_date-20240131";
              "sub-007"]) ∧
  format_names default_prefix (substitute_with noon) structure_rule
    ["001"] sub_level = ([], inr ["sub-001"]) ∧
  format_names default_prefix (substitute_with noon) structure_rule
    ["sub-001"] sub_level = ([], inr ["sub-001"]).
Proof.
  destruct (formatting_is_idempotent default_prefix (substitute_with noon)
              structure_rule sub_level) as [Hagain Hfirst].
  split.
  - apply (Hagain [" 001_id-x , 005@TO@006_date-@DATE@"; "sub-007"] []).
    + reflexivity.
    + intros name Hin.
      repeat (apply elem_of_cons in Hin as [->|Hin]; [by split_and!|]).
      by apply elem_of_nil in Hin.
  - destruct (Hfirst "001") as [Hprefixed Hround]; [by split_and!|done..|].
    split; [exact Hprefixed|]. apply Hround. by split_and!.
Defined.

(** * Further properties of the code *)

(** ** utils.py: [get_first_sub_ses_keys] *)

Lemma re_split_no_delim name :
  has_char is_delim name = false → re_split name = [name].
Proof. apply split_by_none. Qed.

Lemma split_by_two p s :
  has_char p s = true → ∃ a b rest, split_by p s = a :: b :: rest.
Proof.
  induction s as [|c s IH]; [done|]. cbn [has_char split_by].
  destruct (p c) eqn:Hc.
  - intros _. destruct s as [|c' s]; [by eexists _, _, _|].
    cbn [split_by]. destruct (p c').
    + by eexists _, _, _.
    + destruct (split_by p s); by eexists _, _, _.
  - intros (a & b & rest & ->)%IH. by eexists _, _, _.
Qed.

Lemma split_by_first_piece p s a rest :
  split_by p s = a :: rest → has_char p a = false.
Proof.
  revert a rest. induction s as [|c s IH]; intros a rest.
  { by intros [= <- <-]. }
  cbn [split_by]. destruct (p c) eqn:Hc; [by intros [= <- <-]|].
  destruct (split_by p s) as [|a' rest'] eqn:Hs.
  - intros [= <- <-]. cbn. by rewrite Hc.
  - intros [= <- <-]. cbn [has_char]. rewrite Hc. by eapply IH.
Qed.

(** A name has a second piece exactly when it holds a dash or an
    underscore; a name without either is its own first piece. *)
Lemma piece2_None name :
  piece2 name = None ↔ has_char is_delim name = false.
Proof.
  unfold piece2. split.
  - destruct (has_char is_delim name) eqn:Hdelim; [|done].
    destruct (split_by_two _ _ Hdelim) as (a & b & rest & Hsplit).
    unfold re_split. by rewrite Hsplit.
  - intros Hdelim. by rewrite re_split_no_delim.
Qed.

Lemma first_piece_no_delim name :
  has_char is_delim name = false → first_piece name = name.
Proof. intros Hdelim. unfold first_piece. by rewrite re_split_no_delim. Qed.

Lemma get_first_sub_ses_keys_lift all_names :
  get_first_sub_ses_keys all_names =
  list_comp (lift IndexError piece2)
    (filter (λ name, first_piece name = "sub" ∨ first_piece name = "ses")
            all_names).
Proof. apply list_comp_ext, second_piece_lift. Qed.

(** X1. [get_first_sub_ses_keys] raises [IndexError] exactly when the
    list holds the bare name "sub" or the bare name "ses"; otherwise it
    returns, in order, the second piece of every name whose first piece is
    "sub" or "ses", one value per such name. *)
Theorem first_keys_raise_on_bare_prefix :
  ∀ all_names,
    (("sub" ∈ all_names ∨ "ses" ∈ all_names) ↔
     get_first_sub_ses_keys all_names = raise IndexError) ∧
    (¬ ("sub" ∈ all_names ∨ "ses" ∈ all_names) →
     ∃ values,
       get_first_sub_ses_keys all_names = ret values ∧
       Forall2 (λ name value, piece2 name = Some value)
         (filter (λ name, first_piece name = "sub" ∨ first_piece name = "ses")
                 all_names)
         values).
Proof.
  intros all_names. rewrite get_first_sub_ses_keys_lift, list_comp_lift.
  set (keyed := filter (λ name, first_piece name = "sub" ∨ first_piece name = "ses")
                       all_names).
  assert (Forall (λ name, is_Some (piece2 name)) keyed ↔
          ¬ ("sub" ∈ all_names ∨ "ses" ∈ all_names)) as Hbare.
  { split.
    - intros Hall Hin.
      assert (∀ name, name ∈ all_names → name = "sub" ∨ name = "ses" → False)
        as Hno; [|destruct Hin; eauto].
      intros name Hname Hbare. rewrite Forall_forall in Hall.
      destruct (Hall name) as [value Hvalue].
      + apply list_elem_of_filter. split; [|done].
        by destruct Hbare as [-> | ->]; [left|right].
      + by destruct Hbare as [-> | ->].
    - intros Hno. apply Forall_forall.
      intros name [Hkey Hin]%list_elem_of_filter.
      destruct (piece2 name) as [value|] eqn:Hvalue; [by eexists|].
      apply piece2_None in Hvalue.
      rewrite (first_piece_no_delim _ Hvalue) in Hkey.
      destruct Hno. by destruct Hkey as [-> | ->]; [left|right]. }
  destruct (decide (Forall (λ name, is_Some (piece2 name)) keyed)) as [Hall|Hall].
  - split; [split; [by intros ?%Hbare|done]|].
    intros _. eexists. split; [done|].
    clear Hbare. induction Hall as [|name names [value Hvalue] _ IH]; [constructor|].
    cbn [omap list_omap]. rewrite Hvalue. by constructor.
  - split; [split; [done|]|by intros ?%Hbare].
    intros _. destruct (decide ("sub" ∈ all_names ∨ "ses" ∈ all_names)); [done|].
    by destruct Hall; apply Hbare.
Qed.

Lemma first_keys_raise_on_bare_prefix_witness :
  ∃ values,
    get_first_sub_ses_keys ["sub-001_date-2023"; "notes.txt"; "ses-02"]
    = ret values
    ∧ Forall2 (λ name value, piece2 name = Some value)
        (filter (λ name, first_piece name = "sub" ∨ first_piece name = "ses")
                ["sub-001_date-2023"; "notes.txt"; "ses-02"])
        values.
Proof.
  apply (proj2 (first_keys_raise_on_bare_prefix
                  ["sub-001_date-2023"; "notes.txt"; "ses-02"])).
  apply (bool_decide_unpack _). exact I.
Defined.

(** X2. Files and folders whose first piece is neither "sub" nor "ses"
    are ignored wherever they stand in the list: inserting one changes
    neither the values returned nor whether the call raises. *)
Theorem first_keys_ignore_other_files :
  ∀ before after other,
    first_piece other ≠ "sub" → first_piece other ≠ "ses" →
    get_first_sub_ses_keys (before ++ other :: after) =
    get_first_sub_ses_keys (before ++ after).
Proof.
  intros before after other Hsub Hses. unfold get_first_sub_ses_keys.
  rewrite !filter_app, filter_cons_False; [done|]. tauto.
Qed.

Lemma first_keys_ignore_other_files_witness :
  get_first_sub_ses_keys (["sub-001"] ++ "config.yaml" :: ["ses-02_date-2024"]) =
  get_first_sub_ses_keys (["sub-001"] ++ ["ses-02_date-2024"]).
Proof. by apply first_keys_ignore_other_files. Defined.

(** ** utils.py: [get_path_after_base_dir] *)

Lemma string_app_assoc (s t u : string) : (s +:+ t) +:+ u = s +:+ t +:+ u.
Proof.
  induction s as [|c s IH]; [done|]. by rewrite !string_app_cons, IH.
Qed.

Lemma join_app sep (a b : list string) :
  ∃ tail, join sep (a ++ b) = join sep a +:+ tail.
Proof.
  induction a as [|x a IH]; [by exists (join sep b)|].
  destruct a as [|y a].
  - destruct b as [|z b]; [exists ""; by rewrite string_app_empty_r|].
    by eexists.
  - destruct IH as [tail IH]. exists tail.
    change (join sep ((x :: y :: a) ++ b))
      with (x +:+ sep +:+ join sep ((y :: a) ++ b)).
    rewrite IH. change (join sep (x :: y :: a))
      with (x +:+ sep +:+ join sep (y :: a)).
    by rewrite !string_app_assoc.
Qed.

Lemma as_posix_anchored p :
  root p ≠ "" ∨ parts p ≠ [] → as_posix p = root p +:+ join "/" (parts p).
Proof.
  unfold as_posix. destruct (root p), (parts p); try done.
  by intros [?|?].
Qed.

Lemma as_posix_joinpath_prefix base rel :
  root rel = "" → (root base ≠ "" ∨ parts base ≠ []) →
  String.prefix (as_posix base) (as_posix (joinpath base rel)) = true.
Proof.
  intros Hrel Hbase. unfold joinpath. rewrite bool_decide_eq_true_2 by done.
  destruct (join_app "/" (parts base) (parts rel)) as [tail Htail].
  rewrite (as_posix_anchored base Hbase), as_posix_anchored; cbn [root parts].
  2:{ destruct Hbase as [?|Hparts]; [by left|right].
      by destruct (parts base). }
  rewrite Htail, <- string_app_assoc. apply prefix_app.
Qed.

Lemma relative_to_joined base rel_parts :
  relative_to {| root := root base; parts := parts base ++ rel_parts |} base =
  ret {| root := ""; parts := rel_parts |}.
Proof.
  unfold relative_to, abs_parts. cbn [root parts].
  destruct (bool_decide (root base = "")) eqn:Hroot.
  - apply bool_decide_eq_true in Hroot. rewrite Hroot.
    destruct (parts base) as [|part base_parts]; [done|].
    rewrite take_app_length, drop_app_length, bool_decide_eq_true_2 by done.
    cbn [length Nat.eqb negb]. by destruct (length base_parts).
  - cbn [length Nat.eqb take drop].
    by rewrite take_app_length, drop_app_length, bool_decide_eq_true_2.
Qed.

(** X3. Taking the part after the base directory undoes joining onto it:
    for every base directory and every relative path,
    [get_path_after_base_dir(base, base / rel)] returns [rel] and does not
    raise. *)
Theorem path_after_base_undoes_join :
  ∀ base rel,
    root rel = "" →
    get_path_after_base_dir base (joinpath base rel) = ret rel.
Proof.
  intros base [rel_root rel_parts]. cbn [root]. intros ->.
  unfold get_path_after_base_dir, path_already_stars_with_base_dir.
  destruct (decide (root base ≠ "" ∨ parts base ≠ [])) as [Hbase|Hbase].
  - rewrite as_posix_joinpath_prefix by done.
    unfold joinpath. cbn [root parts bool_decide decide_rel].
    rewrite bool_decide_eq_true_2 by done. apply relative_to_joined.
  - assert (root base = "" ∧ parts base = []) as [Hroot Hparts].
    { destruct (root base), (parts base); try done; destruct Hbase; eauto. }
    assert (joinpath base {| root := ""; parts := rel_parts |} =
            {| root := ""; parts := rel_parts |}) as ->.
    { unfold joinpath. cbn [root parts]. by rewrite Hroot, Hparts. }
    destruct (String.prefix _ _); [|done].
    unfold relative_to, abs_parts. cbn [root parts].
    by rewrite Hroot, Hparts.
Qed.

Lemma path_after_base_undoes_join_witness :
  get_path_after_base_dir (Path "/home/user/project")
    (joinpath (Path "/home/user/project") (Path "rawdata/sub-001/ses-01")) =
  ret (Path "rawdata/sub-001/ses-01").
Proof. by apply path_after_base_undoes_join. Defined.

(** X4. The test for "already under the base directory" compares the
    two paths as text, the removal of the base compares them part by
    part: a path whose text begins with the text of the base without the
    base being one of its ancestors makes [get_path_after_base_dir] raise
    [ValueError]. *)
Theorem path_after_base_raises_on_text_prefix :
  ∀ base_dir path_,
    path_already_stars_with_base_dir base_dir path_ = true →
    ¬ (abs_parts base_dir `prefix_of` abs_parts path_) →
    get_path_after_base_dir base_dir path_ = raise ValueError.
Proof.
  intros base_dir path_ Htext Hparts.
  unfold get_path_after_base_dir. rewrite Htext. unfold relative_to.
  destruct (abs_parts base_dir) as [|part base_parts] eqn:Hbase.
  { destruct Hparts. by exists (abs_parts path_). }
  cbn [length Nat.eqb]. rewrite bool_decide_eq_false_2; [done|].
  intros Htake. apply Hparts.
  exists (drop (S (length base_parts)) (abs_parts path_)).
  by rewrite <- Htake, take_drop.
Qed.

Lemma path_after_base_raises_on_text_prefix_witness :
  get_path_after_base_dir (Path "/data/proj") (Path "/data/project2/sub-001") =
  raise ValueError.
Proof.
  apply path_after_base_raises_on_text_prefix; [reflexivity|].
  intros [rest Hrest]. discriminate Hrest.
Defined.

(** ** getters.py: [get_existing_project_paths_and_names] *)

Section ExistingProjectsFacts.
Variable home : PurePath.
Variable search_filesystem_path_for_folders : PurePath → list string.
Variable glob : PurePath → string → list PurePath.

Lemma collect_projects_ok all_folders names paths :
  Forall (λ folder_name, (configs_in home glob folder_name ≤ 1)%nat) all_folders →
  collect_projects glob (get_datashuttle_path home) all_folders names paths =
  ret ((names ++ filter (λ folder_name, configs_in home glob folder_name = 1%nat)
                        all_folders)%list,
       (paths ++ map (λ folder_name,
                       joinpath (get_datashuttle_path home) (Path folder_name))
                    (filter (λ folder_name, configs_in home glob folder_name = 1%nat)
                            all_folders))%list).
Proof.
  intros Hall. revert names paths.
  induction Hall as [|folder_name rest Hle _ IH]; intros names paths.
  { cbn. by rewrite !app_nil_r. }
  cbn [collect_projects]. fold (configs_in home glob folder_name).
  assert ((1 <? configs_in home glob folder_name)%nat = false) as ->
    by (apply Nat.ltb_ge; lia).
  destruct (configs_in home glob folder_name =? 1)%nat eqn:Hone.
  - apply Nat.eqb_eq in Hone. rewrite IH, filter_cons_True by done.
    cbn [map]. by rewrite <- !app_assoc.
  - apply Nat.eqb_neq in Hone. by rewrite IH, filter_cons_False.
Qed.

Lemma collect_projects_raise before folder_name after names paths :
  Forall (λ folder_name, (configs_in home glob folder_name ≤ 1)%nat) before →
  (1 < configs_in home glob folder_name)%nat →
  collect_projects glob (get_datashuttle_path home)
    (before ++ folder_name :: after)%list names paths =
  raise_error (two_configs_message folder_name (get_datashuttle_path home)).
Proof.
  intros Hbefore Hmany. revert names paths.
  induction Hbefore as [|first rest Hle _ IH]; intros names paths.
  - cbn [app collect_projects]. fold (configs_in home glob folder_name).
    by rewrite (proj2 (Nat.ltb_lt _ _) Hmany).
  - cbn [app collect_projects]. fold (configs_in home glob first).
    assert ((1 <? configs_in home glob first)%nat = false) as ->
      by (apply Nat.ltb_ge; lia).
    destruct (configs_in home glob first =? 1)%nat; apply IH.
Qed.
End ExistingProjectsFacts.

(** X5. When no folder under the datashuttle path holds more than one
    "config.yaml", [get_existing_project_paths_and_names] returns the
    folders that hold exactly one, in the order they were found, and the
    two lists it returns go together: the n-th path is the datashuttle
    path joined with the n-th name. *)
Theorem existing_projects_are_the_configured_folders :
  ∀ (home : PurePath) (search : PurePath → list string)
    (glob : PurePath → string → list PurePath),
    let datashuttle_path := joinpath home (Path ".datashuttle") in
    let all_folders := search (joinpath datashuttle_path (Path "*")) in
    let configs folder_name :=
      length (glob (joinpath datashuttle_path (Path folder_name)) "config.yaml") in
    Forall (λ folder_name, (configs folder_name ≤ 1)%nat) all_folders →
    ∃ names paths,
      get_existing_project_paths_and_names home search glob =
        ret (names, paths) ∧
      names = filter (λ folder_name, configs folder_name = 1%nat) all_folders ∧
      paths = map (λ name, joinpath datashuttle_path (Path name)) names.
Proof.
  intros home search glob datashuttle_path all_folders configs Hall.
  eexists _, _. split; [|done].
  unfold get_existing_project_paths_and_names.
  by rewrite (collect_projects_ok home glob).
Qed.

Lemma existing_projects_are_the_configured_folders_witness :
  get_existing_project_paths_and_names (Path "/home/user")
    (sample_search false) sample_glob =
  ret (["mice"; "rats"],
       [Path "/home/user/.datashuttle/mice"; Path "/home/user/.datashuttle/rats"]).
Proof.
  destruct (existing_projects_are_the_configured_folders (Path "/home/user")
              (sample_search false) sample_glob)
    as (names & paths & -> & -> & ->).
  - repeat constructor.
  - reflexivity.
Defined.

(** X6. At the first folder that holds more than one "config.yaml" the
    call raises, naming that folder and the datashuttle path, and returns
    no project at all, whatever was collected before. *)
Theorem existing_projects_raise_on_two_configs :
  ∀ (home : PurePath) (search : PurePath → list string)
    (glob : PurePath → string → list PurePath) before folder_name after,
    let datashuttle_path := joinpath home (Path ".datashuttle") in
    let configs name :=
      length (glob (joinpath datashuttle_path (Path name)) "config.yaml") in
    search (joinpath datashuttle_path (Path "*")) =
      (before ++ folder_name :: after)%list →
    Forall (λ name, (configs name ≤ 1)%nat) before →
    (1 < configs folder_name)%nat →
    get_existing_project_paths_and_names home search glob =
      ([], inl (BaseException
         ("There are two config files in project" +:+ folder_name +:+
          " at path " +:+ as_posix datashuttle_path +:+
          ". There should only ever be one config per project. "))).
Proof.
  intros home search glob before folder_name after datashuttle_path configs
    Hsearch Hbefore Hmany.
  unfold get_existing_project_paths_and_names, get_datashuttle_path.
  subst datashuttle_path. rewrite Hsearch.
  by apply (collect_projects_raise home glob).
Qed.

Lemma existing_projects_raise_on_two_configs_witness :
  get_existing_project_paths_and_names (Path "/home/user")
    (sample_search true) sample_glob =
  ([], inl (BaseException
     "There are two config files in projectold at path /home/user/.datashuttle. There should only ever be one config per project. ")).
Proof.
  apply (existing_projects_raise_on_two_configs (Path "/home/user")
           (sample_search true) sample_glob ["mice"; "scratch"; "rats"] "old" []).
  - reflexivity.
  - repeat constructor.
  - vm_compute. lia.
Defined.

(** ** create_folders.py: filling an input with the next number *)

Lemma split_by_pieces p s piece :
  piece ∈ split_by p s → has_char p piece = false.
Proof.
  revert piece. induction s as [|c s IH]; intros piece.
  { by intros ->%list_elem_of_singleton. }
  cbn [split_by]. destruct (p c) eqn:Hc.
  - intros [->|Hin]%elem_of_cons; [done|by apply IH].
  - destruct (split_by p s) as [|first rest] eqn:Hs.
    + intros ->%list_elem_of_singleton. cbn. by rewrite Hc.
    + intros [->|Hin]%elem_of_cons.
      * cbn [has_char]. rewrite Hc. apply IH. left.
      * apply IH. by right.
Qed.

Lemma split_by_app_cut p (s t : string) c :
  p c = true → has_char p s = false →
  split_by p (s +:+ String c t) = s :: split_by p t.
Proof.
  intros Hc. induction s as [|c' s IH]; intros Hs.
  - change ("" +:+ String c t) with (String c t). cbn [split_by]. by rewrite Hc.
  - cbn [has_char] in Hs. apply orb_false_elim in Hs as [Hc' Hs].
    rewrite string_app_cons. cbn [split_by]. by rewrite Hc', IH.
Qed.

(** Splitting at a character undoes joining with it, as long as no joined
    piece holds that character. *)
Lemma split_by_join p c (pieces : list string) :
  p c = true → pieces ≠ [] →
  Forall (λ piece, has_char p piece = false) pieces →
  split_by p (join (String c "") pieces) = pieces.
Proof.
  intros Hc Hne Hall. induction Hall as [|piece rest Hpiece Hrest IH]; [done|].
  destruct rest as [|next rest].
  - cbn [join]. by apply split_by_none.
  - change (join (String c "") (piece :: next :: rest))
      with (piece +:+ String c "" +:+ join (String c "") (next :: rest)).
    change (String c "" +:+ join (String c "") (next :: rest))
      with (String c (join (String c "") (next :: rest))).
    rewrite split_by_app_cut by done. by rewrite IH.
Qed.

(** X7. With the name templates on, the suggestion takes the place of the
    first key-value pair of the template and of nothing else: the value
    written to the input has the suggested name as its first token (when
    the suggestion holds no underscore) and the tokens of the template
    after its first as its other tokens. *)
Theorem suggestion_replaces_first_template_token :
  ∀ (templates : NameTemplates) (next_sub : string)
    (next_ses : string → string) (subject_names : list string)
    (input_id template : string),
    template_on templates = true →
    (template_sub templates = Some template →
     has_char (λ c, Ascii.eqb c "_") next_sub = false →
     ∃ value,
       fill_input_with_next_sub_or_ses_template templates next_sub next_ses
         subject_names sub_level input_id = ret (set_input_value input_id value) ∧
       tokens value = next_sub :: drop 1 (tokens template)) ∧
    (template_ses templates = Some template →
     ∀ subject, subject_names = [subject] → subject ≠ "" →
     has_char (λ c, Ascii.eqb c "_") (next_ses subject) = false →
     ∃ value,
       fill_input_with_next_sub_or_ses_template templates next_sub next_ses
         subject_names ses_level input_id = ret (set_input_value input_id value) ∧
       tokens value = next_ses subject :: drop 1 (tokens template)).
Proof.
  intros templates next_sub next_ses subject_names input_id template Hon.
  assert (∀ next_val,
    has_char (λ c, Ascii.eqb c "_") next_val = false →
    tokens (join "_" (next_val :: drop 1 (tokens template))) =
    next_val :: drop 1 (tokens template)) as Htokens.
  { intros next_val Hnext. unfold tokens at 1.
    apply (split_by_join _ "_"); [done|done|].
    constructor; [done|]. apply Forall_forall. intros piece Hin.
    apply (split_by_pieces _ template).
    by apply (subseteq_drop 1 (tokens template)). }
  split.
  - intros Htemplate Hnext. eexists. split; [|by apply Htokens].
    unfold fill_input_with_next_sub_or_ses_template, templates_on.
    cbn [template_of]. rewrite Hon, Htemplate. reflexivity.
  - intros Htemplate subject -> Hsubject Hnext.
    eexists. split; [|by apply Htokens].
    unfold fill_input_with_next_sub_or_ses_template, templates_on.
    cbn [template_of length Nat.ltb Nat.leb index0].
    rewrite Hon, Htemplate, bool_decide_eq_false_2 by congruence.
    rewrite bind_ret_l. reflexivity.
Qed.

Lemma suggestion_replaces_first_template_token_witness :
  let templates := {| template_on := true;
                      template_sub := Some "sub-XXX_id-XXX_date-@DATE@";
                      template_ses := Some "ses-XXX_date-@DATE@" |} in
  (∃ value,
     fill_input_with_next_sub_or_ses_template templates "sub-004"
       (λ _, "ses-002") ["sub-003"] sub_level "create_folders_subject_input" =
       ret (set_input_value "create_folders_subject_input" value) ∧
     tokens value = "sub-004" :: drop 1 (tokens "sub-XXX_id-XXX_date-@DATE@")) ∧
  (∃ value,
     fill_input_with_next_sub_or_ses_template templates "sub-004"
       (λ _, "ses-002") ["sub-003"] ses_level "create_folders_session_input" =
       ret (set_input_value "create_folders_session_input" value) ∧
     tokens value = "ses-002" :: drop 1 (tokens "ses-XXX_date-@DATE@")).
Proof.
  intros templates. split.
  - by apply (proj1 (suggestion_replaces_first_template_token templates
                       "sub-004" (λ _, "ses-002") ["sub-003"]
                       "create_folders_subject_input"
                       "sub-XXX_id-XXX_date-@DATE@" eq_refl)).
  - by apply (proj2 (suggestion_replaces_first_template_token templates
                       "sub-004" (λ _, "ses-002") ["sub-003"]
                       "create_folders_session_input"
                       "ses-XXX_date-@DATE@" eq_refl) eq_refl "sub-003").
Defined.

(** X8. A session number is suggested only for exactly one subject: the
    session input is written only when the subject input holds a single
    name that is not empty, and the number then comes from that subject.
    With several names, or with the single empty name, the error dialog
    opens instead and the next session number is never asked for; with no
    name at all, indexing the list raises [IndexError]. *)
Theorem session_suggestion_needs_one_subject :
  ∀ (templates : NameTemplates) (next_sub : string)
    (next_ses : string → string) (subject_names : list string)
    (input_id : string),
    let run := fill_input_with_next_sub_or_ses_template templates next_sub
                 next_ses subject_names ses_level input_id in
    ((1 < length subject_names)%nat →
     run = ret (show_modal_error_dialog
                  "Can only suggest next session number when a single subject is provided.")) ∧
    (subject_names = [""] →
     run = ret (show_modal_error_dialog
                  "Must input a subject number before suggesting next session number.")) ∧
    (subject_names = [] → run = raise IndexError) ∧
    (∀ written value,
       run = ret (set_input_value written value) →
       ∃ subject,
         subject_names = [subject] ∧ subject ≠ "" ∧ written = input_id ∧
         (templates_on templates ses_level = false → value = next_ses subject)).
Proof.
  intros templates next_sub next_ses subject_names input_id run. subst run.
  unfold fill_input_with_next_sub_or_ses_template.
  destruct subject_names as [|subject [|second rest]].
  - split_and!; [cbn; lia|done|done|done].
  - destruct (decide (subject = "")) as [->|Hsubject].
    + split_and!; [cbn; lia|done|done|done].
    + cbn [length Nat.ltb Nat.leb index0].
      rewrite bool_decide_eq_false_2 by congruence. rewrite bind_ret_l.
      split_and!; [lia|congruence|done|].
      intros written value [= <- <-]. exists subject.
      split_and!; [done..|]. by intros ->.
  - split_and!; [done|done|done|done].
Qed.

Lemma session_suggestion_needs_one_subject_witness :
  let templates := {| template_on := false; template_sub := None;
                      template_ses := None |} in
  fill_input_with_next_sub_or_ses_template templates "sub-004"
    (λ subject, "ses-002") ["sub-001"; "sub-002"] ses_level
    "create_folders_session_input" =
  ret (show_modal_error_dialog
         "Can only suggest next session number when a single subject is provided.").
Proof.
  intros templates.
  apply (session_suggestion_needs_one_subject templates "sub-004"
           (λ subject, "ses-002") ["sub-001"; "sub-002"]
           "create_folders_session_input").
  cbn. lia.
Defined.

(** ** canonical_configs.py: the checks on a config *)

Lemma r_bind_inr_inv {A B} (m : R A) (k : A → R B) b :
  r_bind m k = inr b → ∃ a, m = inr a ∧ k a = inr b.
Proof. destruct m as [e|a]; [done|]. intros Hk. by exists a. Qed.

Lemma keys_nine {V} (d : Dict V) k1 k2 k3 k4 k5 k6 k7 k8 k9 :
  keys d = [k1; k2; k3; k4; k5; k6; k7; k8; k9] →
  ∃ v1 v2 v3 v4 v5 v6 v7 v8 v9,
    d = [(k1, v1); (k2, v2); (k3, v3); (k4, v4); (k5, v5); (k6, v6);
         (k7, v7); (k8, v8); (k9, v9)].
Proof.
  unfold keys. intros Hkeys.
  do 9 (destruct d as [|[? ?] d]; [done|]; cbn in Hkeys;
        injection Hkeys as <- Hkeys).
  destruct d; [|done]. by eexists _, _, _, _, _, _, _, _, _.
Qed.

(** Evaluates the lookups of known keys in a dict given entry by entry. *)
Ltac getitem_known :=
  repeat match goal with
         | H : context [getitem ?d ?k] |- _ =>
             let v := eval vm_compute in (getitem d k) in
             change (getitem d k) with v in H
         | |- context [getitem ?d ?k] =>
             let v := eval vm_compute in (getitem d k) in
             change (getitem d k) with v
         end.

Lemma check_config_types_nine lp rp cm hid hun e b i h :
  check_config_types
    [("local_path", lp); ("remote_path", rp); ("connection_method", cm);
     ("remote_host_id", hid); ("remote_host_username", hun);
     ("use_ephys", e); ("use_behav", b); ("use_imaging", i);
     ("use_histology", h)] = inr tt ↔
  isinstance lp str_or_Path = true ∧ isinstance rp str_or_Path = true ∧
  isinstance cm only_str = true ∧ isinstance hid str_or_None = true ∧
  isinstance hun str_or_None = true ∧ isinstance e only_bool = true ∧
  isinstance b only_bool = true ∧ isinstance i only_bool = true ∧
  isinstance h only_bool = true.
Proof.
  unfold check_config_types.
  cbn [keys map fst r_for_each]. getitem_known. cbn [r_bind].
  destruct (isinstance lp str_or_Path); [|by split; [|intros [? _]]].
  destruct (isinstance rp str_or_Path); [|by split; [|intros (_ & ? & _)]].
  destruct (isinstance cm only_str); [|by split; [|intros (_ & _ & ? & _)]].
  destruct (isinstance hid str_or_None);
    [|by split; [|intros (_ & _ & _ & ? & _)]].
  destruct (isinstance hun str_or_None);
    [|by split; [|intros (_ & _ & _ & _ & ? & _)]].
  destruct (isinstance e only_bool);
    [|by split; [|intros (_ & _ & _ & _ & _ & ? & _)]].
  destruct (isinstance b only_bool);
    [|by split; [|intros (_ & _ & _ & _ & _ & _ & ? & _)]].
  destruct (isinstance i only_bool);
    [|by split; [|intros (_ & _ & _ & _ & _ & _ & _ & ? & _)]].
  destruct (isinstance h only_bool);
    [|by split; [|intros (_ & _ & _ & _ & _ & _ & _ & _ & ?)]].
  by split.
Qed.

(** X9. [check_dict_values_and_inform_user] lets a config through exactly
    when it is acceptable: the nine canonical keys in their order, values
    of the required types with the remote path given as a path, not as a
    string, and not beginning with "~", a connection method "ssh" or
    "local_filesystem", some experiment type on, and for ssh a host id and
    a user name that are not empty. *)
Theorem config_check_passes_iff_acceptable :
  ∀ config_dict,
    check_dict_values_and_inform_user config_dict = inr tt ↔
    acceptable_config config_dict.
Proof.
  intros config_dict. split.
  - unfold check_dict_values_and_inform_user.
    intros ([] & _ & Hrun)%r_bind_inr_inv.
    apply r_bind_inr_inv in Hrun as ([] & _ & Hrun).
    apply r_bind_inr_inv in Hrun as ([] & Htypes & Hrun).
    apply r_bind_inr_inv in Hrun as ([] & Horder & Hrun).
    destruct (bool_decide (keys config_dict = canonical_config_keys))
      eqn:Hkeys; [|done].
    apply bool_decide_eq_true, keys_nine in Hkeys
      as (lp & rp & cm & hid & hun & e & b & i & h & ->).
    clear Horder.
    apply check_config_types_nine in Htypes
      as (Hlp & Hrp & Hcm & Hhid & Hhun & He & Hb & Hi & Hh).
    destruct cm as [| | |cm|]; try discriminate Hcm.
    destruct e as [|e| | |]; try discriminate He.
    destruct b as [|b| | |]; try discriminate Hb.
    destruct i as [|i| | |]; try discriminate Hi.
    destruct h as [|h| | |]; try discriminate Hh.
    getitem_known. cbn [r_bind r_list_comp get_experiment_types] in Hrun.
    getitem_known. cbn [r_bind] in Hrun.
    destruct (in_strings (PyStr cm) ["ssh"; "local_filesystem"]) eqn:Hmethod;
      [|done].
    cbn [negb r_bind] in Hrun.
    destruct rp as [| | |remote|remote]; try discriminate Hrun.
    cbn [call_as_posix r_bind] in Hrun.
    destruct (first_char (as_posix remote)) as [|first] eqn:Hfirst; [done|].
    cbn [r_bind] in Hrun.
    destruct (Ascii.eqb first "~") eqn:Htilde; [done|]. cbn [r_bind] in Hrun.
    destruct (existsb py_truthy [PyBool e; PyBool b; PyBool i; PyBool h])
      eqn:Hused; [|done].
    cbn [negb r_bind] in Hrun.
    exists lp, remote, cm, hid, hun, e, b, i, h, first.
    split_and!; try done.
    + unfold in_strings in Hmethod. apply bool_decide_eq_true in Hmethod.
      rewrite !elem_of_cons in Hmethod.
      destruct Hmethod as [?|[?|Hnil]]; [by left|by right|].
      by apply elem_of_nil in Hnil.
    + by apply Ascii.eqb_neq.
    + cbn in Hused. by destruct e, b, i, h.
    + intros ->. cbn in Hrun. by destruct (py_truthy hid), (py_truthy hun).
  - intros (lp & remote & cm & hid & hun & e & b & i & h & first & -> &
            Hlp & Hcm & Hhid & Hhun & Hfirst & Htilde & Hused & Hssh).
    unfold check_dict_values_and_inform_user.
    repeat match goal with
           | |- context [r_bind (r_for_each ?f ?l) _] =>
               assert (r_for_each f l = inr tt) as -> by reflexivity;
               cbn [r_bind]
           end.
    rewrite (proj2 (check_config_types_nine _ _ _ _ _ _ _ _ _)) by done.
    cbn [r_bind]. rewrite bool_decide_eq_true_2 by done. cbn [negb r_bind].
    getitem_known. cbn [r_bind r_list_comp get_experiment_types].
    getitem_known. cbn [r_bind call_as_posix].
    rewrite Hfirst. cbn [r_bind].
    rewrite (proj2 (Ascii.eqb_neq _ _) Htilde). cbn [r_bind].
    assert (existsb py_truthy [PyBool e; PyBool b; PyBool i; PyBool h] = true)
      as -> by (cbn; by destruct e, b, i, h).
    cbn [negb r_bind].
    destruct Hcm as [-> | ->]; [|done].
    destruct Hssh as [-> ->]; done.
Qed.

Lemma config_check_passes_iff_acceptable_witness :
  check_dict_values_and_inform_user
    [("local_path", PyStr "/home/user/project");
     ("remote_path", PyPath (Path "/nfs/project"));
     ("connection_method", PyStr "local_filesystem");
     ("remote_host_id", PyNone); ("remote_host_username", PyNone);
     ("use_ephys", PyBool true); ("use_behav", PyBool true);
     ("use_imaging", PyBool false); ("use_histology", PyBool false)] =
  inr tt.
Proof.
  apply (proj2 (config_check_passes_iff_acceptable _)).
  exists (PyStr "/home/user/project"), (Path "/nfs/project"),
    "local_filesystem", PyNone, PyNone, true, true, false, false, "/"%char.
  split_and!; [reflexivity|reflexivity|by right|reflexivity|reflexivity|
               reflexivity|discriminate|reflexivity|discriminate].
Defined.

(** X10. The type table admits a string as remote path, the "~" test
    does not: a config that is in order up to there but gives its remote
    path as a string is stopped by an [AttributeError], not by one of the
    messages of [raise_error]. *)
Theorem config_check_string_remote_path :
  ∀ local_path remote_path connection_method remote_host_id
    remote_host_username use_ephys use_behav use_imaging use_histology,
    isinstance local_path str_or_Path = true →
    connection_method = "ssh" ∨ connection_method = "local_filesystem" →
    isinstance remote_host_id str_or_None = true →
    isinstance remote_host_username str_or_None = true →
    check_dict_values_and_inform_user
      [("local_path", local_path); ("remote_path", PyStr remote_path);
       ("connection_method", PyStr connection_method);
       ("remote_host_id", remote_host_id);
       ("remote_host_username", remote_host_username);
       ("use_ephys", PyBool use_ephys); ("use_behav", PyBool use_behav);
       ("use_imaging", PyBool use_imaging);
       ("use_histology", PyBool use_histology)] =
    inl (AttributeError "'str' object has no attribute 'as_posix'").
Proof.
  intros lp remote cm hid hun e b i h Hlp Hcm Hhid Hhun.
  unfold check_dict_values_and_inform_user.
  repeat match goal with
         | |- context [r_bind (r_for_each ?f ?l) _] =>
             assert (r_for_each f l = inr tt) as -> by reflexivity;
             cbn [r_bind]
         end.
  rewrite (proj2 (check_config_types_nine _ _ _ _ _ _ _ _ _)) by done.
  cbn [r_bind]. rewrite bool_decide_eq_true_2 by done. cbn [negb r_bind].
  getitem_known. cbn [r_bind].
  by destruct Hcm as [-> | ->].
Qed.

Lemma config_check_string_remote_path_witness :
  check_dict_values_and_inform_user
    [("local_path", PyStr "/home/user/project");
     ("remote_path", PyStr "/nfs/project");
     ("connection_method", PyStr "local_filesystem");
     ("remote_host_id", PyNone); ("remote_host_username", PyNone);
     ("use_ephys", PyBool true); ("use_behav", PyBool true);
     ("use_imaging", PyBool false); ("use_histology", PyBool false)] =
  inl (AttributeError "'str' object has no attribute 'as_posix'").
Proof. apply config_check_string_remote_path; [done|by right|done|done]. Defined.

(** ** canonical_configs.py: booleans given as text *)

(** X11. [handle_bool] is idempotent: a value it returns is returned
    unchanged when handled again under the same key. For an experiment
    type key, a value given as [None] or as text comes back as a boolean
    or not at all. *)
Theorem handle_bool_idempotent :
  ∀ key value handled,
    handle_bool key value = inr handled →
    handle_bool key handled = inr handled ∧
    (key ∈ get_experiment_types →
     value = PyNone ∨ (∃ s, value = PyStr s) →
     ∃ b, handled = PyBool b).
Proof.
  intros key value handled. unfold handle_bool, get_experiment_types.
  destruct (bool_decide (key ∈ _)) eqn:Hkey.
  - destruct value as [|b|n|s|p]; cbn [in_strings is_None orb].
    + intros [= <-]. split; [done|]. by exists false.
    + intros [= <-]. split; [done|]. by intros _ [?|[? ?]].
    + intros [= <-]. split; [done|]. by intros _ [?|[? ?]].
    + destruct (bool_decide (s ∈ ["None"; "none"])) eqn:Hnone; cbn [orb].
      * intros [= <-]. split; [done|]. by exists false.
      * destruct (bool_decide (s ∈ ["True"; "False"; "true"; "false"]));
          [|done].
        cbn [negb]. intros [= <-]. split; [done|]. by eexists.
    + intros [= <-]. split; [done|]. by intros _ [?|[? ?]].
  - apply bool_decide_eq_false in Hkey. intros Hhandled. split; [|done].
    destruct value as [|b|n|s|p]; cbn [in_strings] in *;
      try by injection Hhandled as <-.
    destruct (bool_decide (s ∈ ["None"; "none"])) eqn:Hnone.
    + by injection Hhandled as <-.
    + injection Hhandled as <-. cbn [in_strings]. by rewrite Hnone.
Qed.

Lemma handle_bool_idempotent_witness :
  handle_bool "use_ephys" (PyBool true) = inr (PyBool true) ∧
  (∃ b, PyBool true = PyBool b).
Proof.
  destruct (handle_bool_idempotent "use_ephys" (PyStr "true") (PyBool true)
              eq_refl) as [Hagain Hbool].
  split; [exact Hagain|]. apply Hbool; [by left|right; by eexists].
Defined.

Lemma handle_bools_from_keys done_ todo :
  keys (handle_bools_from done_ todo).1 = keys (done_ ++ todo)%list.
Proof.
  revert done_. induction todo as [|[key value] rest IH]; intros done_.
  { by rewrite app_nil_r. }
  cbn [handle_bools_from]. destruct (handle_bool key value) as [e|value'];
    [done|].
  rewrite IH. unfold keys. rewrite !map_app. cbn [map fst].
  by rewrite <- app_assoc.
Qed.

Lemma handle_bools_from_ok done_ todo handled :
  handle_bools_from done_ todo = (handled, inr tt) →
  ∃ converted,
    handled = (done_ ++ converted)%list ∧
    Forall2 (λ before after,
               after.1 = before.1 ∧ handle_bool before.1 before.2 = inr after.2)
            todo converted.
Proof.
  revert done_. induction todo as [|[key value] rest IH]; intros done_.
  { intros [= <-]. exists []. by rewrite app_nil_r. }
  cbn [handle_bools_from].
  destruct (handle_bool key value) as [e|value'] eqn:Hvalue; [done|].
  intros (converted & -> & Hrest)%IH. exists ((key, value') :: converted).
  split; [by rewrite <- app_assoc|]. by constructor.
Qed.

(** X12. [handle_cli_or_supplied_config_bools] never adds, drops or
    reorders a key of the dict it rewrites, whether it returns or raises;
    when it returns, every value has been replaced by what [handle_bool]
    makes of it under its key. *)
Theorem handle_bools_keeps_keys :
  ∀ dict_,
    keys (handle_cli_or_supplied_config_bools dict_).1 = keys dict_ ∧
    ((handle_cli_or_supplied_config_bools dict_).2 = inr tt →
     Forall2 (λ before after,
                after.1 = before.1 ∧
                handle_bool before.1 before.2 = inr after.2)
             dict_ (handle_cli_or_supplied_config_bools dict_).1).
Proof.
  intros dict_. unfold handle_cli_or_supplied_config_bools.
  split; [apply handle_bools_from_keys|].
  intros Hok.
  destruct (handle_bools_from [] dict_) as [handled outcome] eqn:Hrun.
  cbn [snd] in Hok. subst outcome.
  by apply handle_bools_from_ok in Hrun as (converted & -> & Hall).
Qed.

Lemma handle_bools_keeps_keys_witness :
  Forall2 (λ before after,
             after.1 = before.1 ∧ handle_bool before.1 before.2 = inr after.2)
    [("use_ephys", PyStr "true"); ("remote_host_id", PyStr "none");
     ("use_behav", PyNone); ("local_path", PyStr "/data")]
    [("use_ephys", PyBool true); ("remote_host_id", PyNone);
     ("use_behav", PyBool false); ("local_path", PyStr "/data")].
Proof.
  exact (proj2 (handle_bools_keeps_keys
                  [("use_ephys", PyStr "true"); ("remote_host_id", PyStr "none");
                   ("use_behav", PyNone); ("local_path", PyStr "/data")])
               eq_refl).
Defined.

(** ** Experiment types *)

Section ExperimentTypesFacts.
Context {Directory : Type}.
Variable name : Directory → string.
Variable _ses_dirs : Dict Directory.

Lemma getitem_in_keys (key : string) :
  key ∈ keys _ses_dirs →
  ∃ value, getitem _ses_dirs key = inr value ∧ (key, value) ∈ _ses_dirs.
Proof.
  unfold keys. induction _ses_dirs as [|[k v] d IH]; cbn.
  - intros Hin. by apply elem_of_nil in Hin.
  - intros Hin. destruct (decide (k = key)) as [->|Hne].
    + rewrite bool_decide_eq_true_2 by done. exists v. split; [done|left].
    + rewrite bool_decide_eq_false_2 by done.
      apply elem_of_cons in Hin as [Heq|Hin]; [congruence|].
      destruct (IH Hin) as (value & Hget & Hel).
      exists value. split; [done|by right].
Qed.

Lemma getitem_of_entry (key : string) (value : Directory) :
  NoDup (keys _ses_dirs) → (key, value) ∈ _ses_dirs →
  getitem _ses_dirs key = inr value.
Proof.
  unfold keys. induction _ses_dirs as [|[k v] d IH]; cbn.
  - intros _ Hin. by apply elem_of_nil in Hin.
  - intros Hnd Hin. apply NoDup_cons in Hnd as [Hk Hnd].
    apply elem_of_cons in Hin as [Heq|Hin].
    + injection Heq as -> ->. by rewrite bool_decide_eq_true_2.
    + rewrite bool_decide_eq_false_2; [by apply IH|].
      intros ->. apply Hk. apply list_elem_of_fmap. by exists (key, value).
Qed.

Lemma lookup_each_found (names : list string) (values : list Directory) :
  Forall2 (λ k v, getitem _ses_dirs k = inr v) names values →
  ∀ key acc,
    lookup_each _ses_dirs names key acc
    = inr (from_option Some key (last names), (acc ++ values)%list).
Proof.
  induction 1 as [|k v names values Hget _ IH]; intros key acc; cbn.
  - by rewrite app_nil_r.
  - rewrite Hget. cbn. rewrite IH, <- app_assoc, last_cons.
    by destruct (last names).
Qed.

Lemma valid_list_values (names : list string) :
  Forall (λ k, k ∈ keys _ses_dirs) names →
  ∃ values, Forall2 (λ k v, getitem _ses_dirs k = inr v) names values
            ∧ Forall2 (λ k v, (k, v) ∈ _ses_dirs) names values.
Proof.
  induction 1 as [|k names Hk _ (values & Hget & Hel)].
  - exists []. split; constructor.
  - destruct (getitem_in_keys k Hk) as (v & Hv & Hin).
    exists (v :: values). split; by constructor.
Qed.

Lemma match_directories_ok (names : list string) :
  NoDup (keys _ses_dirs) →
  Forall (λ dn, (length (filter (λ e, name e.2 = dn) _ses_dirs) ≤ 1)%nat) names →
  ∀ ks vs, length ks = length vs →
    match_directories name _ses_dirs names ks vs
    = inr (zip ks vs
           ++ flat_map (λ dn, filter (λ e, name e.2 = dn) _ses_dirs) names)%list.
Proof.
  intros Hnd. induction 1 as [|dn names Hdn _ IH]; intros ks vs Hlen;
    cbn -[Nat.ltb].
  - by rewrite app_nil_r.
  - rewrite length_map.
    destruct (Nat.ltb_spec 1 (length (filter (λ e, name e.2 = dn) _ses_dirs)))
      as [Hlt|_]; [lia|].
    destruct (filter (λ e, name e.2 = dn) _ses_dirs) as [|[k v] rest] eqn:Hf.
    + cbn. by apply IH.
    + destruct rest; [|cbn in Hdn; lia]. cbn.
      assert ((k, v) ∈ filter (λ e, name e.2 = dn) _ses_dirs) as Hin
        by (rewrite Hf; left).
      apply list_elem_of_filter in Hin as [_ Hin].
      rewrite (getitem_of_entry k v Hnd Hin). cbn.
      rewrite IH by (by rewrite !length_app, Hlen).
      rewrite zip_with_app by done. cbn. by rewrite <- app_assoc.
Qed.

Lemma match_directories_raise (names : list string) :
  Exists (λ dn, (1 < length (filter (λ e, name e.2 = dn) _ses_dirs))%nat) names →
  ∀ ks vs,
    match_directories name _ses_dirs names ks vs
    = r_raise_error
        "There are matching experiment type names in the tree specified at self._ses_dirs. Remove duplicates".
Proof.
  induction names as [|dn names IH]; intros Hex ks vs.
  - by apply Exists_nil in Hex.
  - cbn -[Nat.ltb]. rewrite length_map.
    destruct (Nat.ltb_spec 1 (length (filter (λ e, name e.2 = dn) _ses_dirs)))
      as [Hlt|Hle]; [done|].
    apply Exists_cons in Hex as [Hex|Hex]; [lia|].
    destruct (filter (λ e, name e.2 = dn) _ses_dirs) as [|[k v] rest] eqn:Hf.
    + cbn. by apply IH.
    + cbn.
      assert ((k, v) ∈ filter (λ e, name e.2 = dn) _ses_dirs) as Hin
        by (rewrite Hf; left).
      apply list_elem_of_filter in Hin as [_ Hin].
      destruct (getitem_in_keys k) as (value & Hget & _).
      { apply list_elem_of_fmap. by exists (k, v). }
      rewrite Hget. cbn. by apply IH.
Qed.

Lemma accepted_list_keys (names : list string) :
  forallb (λ type, bool_decide (type ∈ (keys _ses_dirs ++ ["all"])%list)) names
  = true →
  Forall (λ k, k = "all" ∨ k ∈ keys _ses_dirs) names.
Proof.
  intros Hall. apply Forall_forall. intros k Hk.
  apply list_elem_of_In in Hk.
  apply (proj1 (forallb_forall _ _) Hall) in Hk.
  apply bool_decide_eq_true in Hk.
  apply elem_of_app in Hk as [Hk|Hk]; [by right|left].
  by apply list_elem_of_singleton in Hk.
Qed.

Lemma keys_are_accepted (names : list string) :
  Forall (λ k, k = "all" ∨ k ∈ keys _ses_dirs) names →
  forallb (λ type, bool_decide (type ∈ (keys _ses_dirs ++ ["all"])%list)) names
  = true.
Proof.
  intros Hall. apply forallb_forall. intros k Hk.
  apply list_elem_of_In in Hk.
  apply bool_decide_eq_true. apply elem_of_app.
  destruct (proj1 (Forall_forall _ _) Hall k Hk) as [->|Hin];
    [right; left|by left].
Qed.

Lemma distinct_names_match_once (dn : string) :
  NoDup (map (λ e, name e.2) _ses_dirs) →
  (length (filter (λ e, name e.2 = dn) _ses_dirs) ≤ 1)%nat.
Proof.
  unfold Dict in *.
  induction _ses_dirs as [|e d IH]; [cbn; lia|].
  intros Hnd. cbn in Hnd. apply NoDup_cons in Hnd as [He Hnd].
  rewrite filter_cons. destruct (decide (name e.2 = dn)) as [Heq|_]; [|by apply IH].
  cbn. assert (filter (λ e0, name e0.2 = dn) d = []) as ->; [|cbn; lia].
  destruct (filter (λ e0, name e0.2 = dn) d) as [|e' rest] eqn:Hf; [done|].
  exfalso. apply He.
  assert (e' ∈ filter (λ e0, name e0.2 = dn) d) as Hin by (rewrite Hf; left).
  apply list_elem_of_filter in Hin as [Hname Hin].
  apply list_elem_of_fmap. exists e'. split; [congruence|done].
Qed.

Lemma two_matches (dn : string) (e1 e2 : string * Directory) :
  e1 ∈ _ses_dirs → e2 ∈ _ses_dirs → e1 ≠ e2 →
  name e1.2 = dn → name e2.2 = dn →
  (1 < length (filter (λ e, name e.2 = dn) _ses_dirs))%nat.
Proof.
  intros H1 H2 Hne Hn1 Hn2.
  assert (e1 ∈ filter (λ e, name e.2 = dn) _ses_dirs) as Hf1
    by (by apply list_elem_of_filter).
  assert (e2 ∈ filter (λ e, name e.2 = dn) _ses_dirs) as Hf2
    by (by apply list_elem_of_filter).
  destruct (filter (λ e, name e.2 = dn) _ses_dirs) as [|a [|b rest]]; cbn;
    [by apply elem_of_nil in Hf1| |lia].
  apply list_elem_of_singleton in Hf1, Hf2. congruence.
Qed.

Lemma matched_names (names : list string) :
  NoDup (map (λ e, name e.2) _ses_dirs) →
  map (λ e, name e.2)
      (flat_map (λ dn, filter (λ e, name e.2 = dn) _ses_dirs) names)
  = filter (λ dn, dn ∈ map (λ e, name e.2) _ses_dirs) names.
Proof.
  intros Hnd. induction names as [|dn names IH]; [done|].
  rewrite filter_cons. cbn [flat_map]. rewrite map_app, IH.
  pose proof (distinct_names_match_once dn Hnd) as Hle.
  destruct (filter (λ e, name e.2 = dn) _ses_dirs) as [|e rest] eqn:Hf.
  - rewrite decide_False; [done|].
    intros Hin. apply list_elem_of_fmap in Hin as (e & Hname & Hin).
    assert (e ∈ filter (λ e, name e.2 = dn) _ses_dirs) as Hfin
      by (by apply list_elem_of_filter).
    rewrite Hf in Hfin. by apply elem_of_nil in Hfin.
  - destruct rest; [|cbn in Hle; lia].
    assert (e ∈ filter (λ e, name e.2 = dn) _ses_dirs) as Hfin
      by (rewrite Hf; left).
    apply list_elem_of_filter in Hfin as [Hname Hin].
    rewrite decide_True; [cbn; by rewrite Hname|].
    apply list_elem_of_fmap. by exists e.
Qed.

(** X13. An experiment type given as one name: [_get_experiment_type_items]
    returns exactly when [_check_experiment_type_is_valid] accepts the
    name. "all" gives every entry of [_ses_dirs] in its order, another
    accepted name the one entry under that key; a rejected name raises
    [KeyError] with that name. *)
Theorem single_name_items_follow_validity
    (invalid_message : ExperimentType → list string → string)
    (type : string) (prompt_on_fail : bool) :
  ((_check_experiment_type_is_valid _ses_dirs invalid_message
      (one_type type) prompt_on_fail).2 = true →
   ∃ items,
     _get_experiment_type_items _ses_dirs (one_type type) = inr items
     ∧ (type = "all" → items = _ses_dirs)
     ∧ (type ≠ "all" →
        ∃ value, items = [(type, value)] ∧ (type, value) ∈ _ses_dirs))
  ∧ ((_check_experiment_type_is_valid _ses_dirs invalid_message
        (one_type type) prompt_on_fail).2 = false →
     _get_experiment_type_items _ses_dirs (one_type type)
     = inl (KeyError type)).
Proof.
  cbn. split.
  - intros Hvalid. destruct (decide (type = "all")) as [->|Hne].
    + exists _ses_dirs. by split_and!.
    + rewrite (bool_decide_eq_false_2 (type = "all")) in * by done.
      rewrite orb_false_r in Hvalid. apply bool_decide_eq_true in Hvalid.
      destruct (getitem_in_keys type Hvalid) as (value & Hget & Hin).
      exists [(type, value)]. cbn. rewrite Hget. split_and!; [done|done|].
      intros _. by exists value.
  - intros Hinvalid. apply orb_false_iff in Hinvalid as [Hkey Hall].
    rewrite Hall. cbn. apply bool_decide_eq_false in Hkey.
    clear Hall. unfold keys in Hkey.
    induction _ses_dirs as [|[k v] d IH]; [done|]. cbn.
    rewrite bool_decide_eq_false_2.
    + apply IH. intros Hin. apply Hkey. by right.
    + intros ->. apply Hkey. left.
Qed.

(** X14. An accepted list of keys without "all" does not raise, but the
    items [_get_experiment_type_items] returns are not keyed by those
    keys: [zip(key, values)] pairs the characters of the last key with
    the directories of the keys, in the order of the list, and stops at
    the shorter of the two. *)
Theorem key_list_items_pair_characters_of_last_key
    (invalid_message : ExperimentType → list string → string)
    (names : list string) (last_key : string) (prompt_on_fail : bool) :
  "all" ∉ (names ++ [last_key])%list →
  (_check_experiment_type_is_valid _ses_dirs invalid_message
     (type_list (names ++ [last_key])) prompt_on_fail).2 = true →
  ∃ values,
    Forall2 (λ k v, (k, v) ∈ _ses_dirs) (names ++ [last_key])%list values
    ∧ _get_experiment_type_items _ses_dirs (type_list (names ++ [last_key]))
      = inr (zip (chars last_key) values).
Proof.
  intros Hno_all Hvalid. cbn in Hvalid.
  apply accepted_list_keys in Hvalid.
  assert (Forall (λ k, k ∈ keys _ses_dirs) (names ++ [last_key])%list)
    as Hkeys.
  { apply Forall_forall. intros k Hk.
    destruct (proj1 (Forall_forall _ _) Hvalid k Hk) as [->|Hin];
      [by destruct Hno_all|done]. }
  destruct (valid_list_values _ Hkeys) as (values & Hget & Hin).
  exists values. split; [done|].
  cbn. rewrite bool_decide_eq_false_2 by done. cbn.
  unfold _get_ses_dirs_items_from_list_of_keys.
  rewrite (lookup_each_found _ _ Hget). cbn.
  by rewrite last_snoc.
Qed.

(** X15. Two lists that [_check_experiment_type_is_valid] accepts make
    [_get_experiment_type_items] raise: the empty list, for which the
    loop variable [key] is never bound, and a list that holds "all"
    beside other names, which is then used as a key of the dict. *)
Theorem accepted_lists_that_raise
    (invalid_message : ExperimentType → list string → string)
    (prompt_on_fail : bool) :
  (_check_experiment_type_is_valid _ses_dirs invalid_message
     (type_list []) prompt_on_fail = ([], true)
   ∧ _get_experiment_type_items _ses_dirs (type_list [])
     = inl (UnboundLocalError "key"))
  ∧ ∀ names,
      "all" ∈ names → names ≠ ["all"] →
      Forall (λ k, k = "all" ∨ k ∈ keys _ses_dirs) names →
      _check_experiment_type_is_valid _ses_dirs invalid_message
        (type_list names) prompt_on_fail = ([], true)
      ∧ _get_experiment_type_items _ses_dirs (type_list names)
        = inl (TypeError "unhashable type: 'list'").
Proof.
  split.
  - split; [|done]. unfold _check_experiment_type_is_valid. cbn.
    by rewrite andb_false_r.
  - intros names Hall Hne Hkeys. split.
    + unfold _check_experiment_type_is_valid.
      rewrite (keys_are_accepted _ Hkeys). cbn. by rewrite andb_false_r.
    + cbn. rewrite bool_decide_eq_true_2 by done. cbn.
      by rewrite bool_decide_eq_false_2.
Qed.

(** X16. When the keys of [_ses_dirs] are distinct and no two of its
    directories share a name, [_search_base_dir_for_experiment_directories]
    does not raise. Its items are the entries of [_ses_dirs] whose
    directory name was found in the base directory, in the order the
    names were found. *)
Theorem base_dir_search_gives_found_entries
    (top_level_directory_names : list string) :
  NoDup (keys _ses_dirs) →
  NoDup (map (λ e, name e.2) _ses_dirs) →
  ∃ items,
    _search_base_dir_for_experiment_directories name _ses_dirs
      top_level_directory_names = inr items
    ∧ (∀ e, e ∈ items ↔
            e ∈ _ses_dirs ∧ name e.2 ∈ top_level_directory_names)
    ∧ map (λ e, name e.2) items
      = filter (λ dn, dn ∈ map (λ e, name e.2) _ses_dirs)
               top_level_directory_names.
Proof.
  intros Hkeys Hnames.
  exists (flat_map (λ dn, filter (λ e, name e.2 = dn) _ses_dirs)
                   top_level_directory_names).
  split_and!.
  - unfold _search_base_dir_for_experiment_directories.
    rewrite match_directories_ok; [done|done| |done].
    apply Forall_forall. intros dn _. by apply distinct_names_match_once.
  - intros e. rewrite list_elem_of_In, in_flat_map. split.
    + intros (dn & Hdn & Hin).
      apply list_elem_of_In, list_elem_of_filter in Hin as [Hname Hin].
      split; [done|]. rewrite Hname. by apply list_elem_of_In.
    + intros [Hin Hname]. exists (name e.2).
      split; [by apply list_elem_of_In|].
      apply list_elem_of_In. by apply list_elem_of_filter.
  - by apply matched_names.
Qed.

(** X17. When two entries of [_ses_dirs] have directories of one name
    and a directory of that name is found in the base directory,
    [_search_base_dir_for_experiment_directories] raises, whatever else
    was found. *)
Theorem base_dir_search_raises_on_shared_name
    (top_level_directory_names : list string)
    (entry1 entry2 : string * Directory) :
  entry1 ∈ _ses_dirs → entry2 ∈ _ses_dirs → entry1 ≠ entry2 →
  name entry1.2 = name entry2.2 →
  name entry1.2 ∈ top_level_directory_names →
  _search_base_dir_for_experiment_directories name _ses_dirs
    top_level_directory_names
  = inl (Raised (BaseException
      "There are matching experiment type names in the tree specified at self._ses_dirs. Remove duplicates")).
Proof.
  intros H1 H2 Hne Hname Hfound.
  unfold _search_base_dir_for_experiment_directories.
  rewrite match_directories_raise; [done|].
  apply Exists_exists. exists (name entry1.2). split; [done|].
  by apply (two_matches _ entry1 entry2).
Qed.
End ExperimentTypesFacts.

Lemma single_name_items_follow_validity_witness :
  (∃ items,
     _get_experiment_type_items sample_ses_dirs (one_type "behav") = inr items
     ∧ ("behav" = "all" → items = sample_ses_dirs)
     ∧ ("behav" ≠ "all" →
        ∃ value, items = [("behav", value)]
                 ∧ ("behav", value) ∈ sample_ses_dirs))
  ∧ _get_experiment_type_items sample_ses_dirs (one_type "video")
    = inl (KeyError "video").
Proof.
  split.
  - apply (proj1 (single_name_items_follow_validity sample_ses_dirs
                    (λ _ _, "not valid") "behav" true)).
    reflexivity.
  - apply (proj2 (single_name_items_follow_validity sample_ses_dirs
                    (λ _ _, "not valid") "video" true)).
    reflexivity.
Defined.

Lemma key_list_items_pair_characters_of_last_key_witness :
  (∃ values,
     Forall2 (λ k v, (k, v) ∈ sample_ses_dirs) ["ephys"; "behav"] values
     ∧ _get_experiment_type_items sample_ses_dirs
         (type_list ["ephys"; "behav"])
       = inr (zip (chars "behav") values))
  ∧ _get_experiment_type_items sample_ses_dirs (type_list ["ephys"; "behav"])
    = inr [("b", ("ephys", true)); ("e", ("behav", true))].
Proof.
  split; [|reflexivity].
  apply (key_list_items_pair_characters_of_last_key sample_ses_dirs
           (λ _ _, "not valid") ["ephys"] "behav" true).
  - apply (bool_decide_unpack _). exact I.
  - reflexivity.
Defined.

Lemma accepted_lists_that_raise_witness :
  _check_experiment_type_is_valid sample_ses_dirs (λ _ _, "not valid")
    (type_list ["all"; "behav"]) true = ([], true)
  ∧ _get_experiment_type_items sample_ses_dirs (type_list ["all"; "behav"])
    = inl (TypeError "unhashable type: 'list'").
Proof.
  apply (proj2 (accepted_lists_that_raise sample_ses_dirs
                  (λ _ _, "not valid") true)).
  - left.
  - discriminate.
  - apply Forall_cons. split; [by left|].
    apply Forall_cons. split; [right|constructor].
    apply (bool_decide_unpack _). exact I.
Defined.

Lemma base_dir_search_gives_found_entries_witness :
  (∃ items,
     _search_base_dir_for_experiment_directories fst sample_ses_dirs
       ["histology"; "notes"; "ephys"] = inr items
     ∧ (∀ e, e ∈ items ↔
             e ∈ sample_ses_dirs
             ∧ e.2.1 ∈ ["histology"; "notes"; "ephys"])
     ∧ map (λ e, e.2.1) items
       = filter (λ dn, dn ∈ map (λ e, e.2.1) sample_ses_dirs)
                ["histology"; "notes"; "ephys"])
  ∧ _search_base_dir_for_experiment_directories fst sample_ses_dirs
      ["histology"; "notes"; "ephys"]
    = inr [("histology", ("histology", true)); ("ephys", ("ephys", true))].
Proof.
  split; [|reflexivity].
  apply (base_dir_search_gives_found_entries fst sample_ses_dirs
           ["histology"; "notes"; "ephys"]).
  - apply (bool_decide_unpack _). exact I.
  - apply (bool_decide_unpack _). exact I.
Defined.

Lemma base_dir_search_raises_on_shared_name_witness :
  _search_base_dir_for_experiment_directories fst sample_shared_name_dirs
    ["histology"; "recordings"]
  = inl (Raised (BaseException
      "There are matching experiment type names in the tree specified at self._ses_dirs. Remove duplicates")).
Proof.
  apply (base_dir_search_raises_on_shared_name fst sample_shared_name_dirs
           ["histology"; "recordings"]
           ("ephys", ("recordings", true)) ("behav", ("recordings", true))).
  - left.
  - right. left.
  - discriminate.
  - reflexivity.
  - right. left.
Defined.

(** ** Joining onto a base directory *)

Lemma Path_well_formed (s : string) : well_formed (Path s).
Proof.
  split; cbn [root parts Path].
  - destruct s as [|c1 [|c2 [|c3 s]]]; cbn;
      repeat (match goal with |- context [if ?b then _ else _] => destruct b end;
              cbn);
      rewrite !elem_of_cons; tauto.
  - apply Forall_forall. intros part Hin.
    apply list_elem_of_filter in Hin as [[Hne Hdot] Hin].
    split_and!; [done|done|]. by apply (split_by_pieces _ s).
Qed.

Lemma joinpath_well_formed (p q : PurePath) :
  well_formed p → well_formed q → well_formed (joinpath p q).
Proof.
  intros [Hrp Hpp] [Hrq Hpq]. unfold joinpath.
  destruct (bool_decide (root q = "")); [|done].
  split; [done|]. cbn [parts]. by apply Forall_app.
Qed.

Lemma filter_names (ps : list string) :
  Forall (λ part, part ≠ "" ∧ part ≠ "." ∧ has_char is_slash part = false) ps →
  filter (λ part, part ≠ "" ∧ part ≠ ".") ps = ps.
Proof.
  induction 1 as [|part ps (Hne & Hdot & _) _ IH]; [done|].
  rewrite filter_cons_True by done. by rewrite IH.
Qed.

Lemma join_first_char (sep : string) (c : ascii) (s : string)
    (ps : list string) :
  ∃ rest, join sep (String c s :: ps) = String c rest.
Proof.
  destruct ps as [|p ps]; [by exists s|].
  exists (s +:+ sep +:+ join sep (p :: ps)). reflexivity.
Qed.

Lemma splitroot_relative (c : ascii) (s : string) :
  is_slash c = false → splitroot (String c s) = "".
Proof.
  intros Hc. destruct s as [|c2 [|c3 s]]; cbn; by rewrite Hc.
Qed.

Lemma names_joined (part : string) (ps : list string) :
  Forall (λ part, part ≠ "" ∧ part ≠ "." ∧ has_char is_slash part = false)
         (part :: ps) →
  ∃ c rest,
    is_slash c = false
    ∧ join "/" (part :: ps) = String c rest
    ∧ filter (λ part, part ≠ "" ∧ part ≠ ".") (split_by is_slash (String c rest))
      = part :: ps.
Proof.
  intros Hall. pose proof Hall as Hall'.
  apply Forall_cons in Hall' as [(Hne & _ & Hslash) _].
  destruct part as [|c s]; [done|].
  cbn [has_char] in Hslash. apply orb_false_elim in Hslash as [Hc _].
  destruct (join_first_char "/" c s ps) as [rest Hrest].
  exists c, rest. split_and!; [done|done|].
  rewrite <- Hrest, (split_by_join is_slash "/") ; [by apply filter_names|done|done|].
  eapply Forall_impl; [exact Hall|]. by intros ? (_ & _ & ?).
Qed.

(** Parsing the string of a path gives the path back. *)
Lemma Path_as_posix (p : PurePath) :
  well_formed p → Path (as_posix p) = p.
Proof.
  destruct p as [r ps]. intros [Hr Hps]. cbn [root parts] in *.
  rewrite !elem_of_cons in Hr.
  destruct ps as [|part ps].
  - destruct Hr as [->|[->|[->|Hr]]]; [done|done|done|by apply elem_of_nil in Hr].
  - destruct (names_joined part ps Hps) as (c & rest & Hc & Hjoin & Hsplit).
    rewrite as_posix_anchored by (by right). cbn [root parts]. rewrite Hjoin.
    destruct Hr as [->|[->|[->|Hr]]]; [| | |by apply elem_of_nil in Hr].
    + change ("" +:+ String c rest) with (String c rest).
      unfold Path. by rewrite Hsplit, splitroot_relative.
    + change ("/" +:+ String c rest) with (String "/" (String c rest)).
      unfold Path. f_equal.
      * destruct rest; cbn; by rewrite Hc.
      * change (split_by is_slash (String "/" (String c rest)))
          with ("" :: split_by is_slash (String c rest)).
        rewrite filter_cons_False by (by intros [? _]). done.
    + change ("//" +:+ String c rest)
        with (String "/" (String "/" (String c rest))).
      unfold Path. f_equal.
      * cbn. by rewrite Hc.
      * change (split_by is_slash (String "/" (String "/" (String c rest))))
          with ("" :: "" :: split_by is_slash (String c rest)).
        rewrite !filter_cons_False by (by intros [? _]). done.
Qed.

Lemma joined_path_is_fixed (base_dir subdirs_path : PurePath) :
  let joined_path :=
    if path_already_stars_with_base_dir base_dir subdirs_path
    then subdirs_path else joinpath base_dir subdirs_path in
  (if path_already_stars_with_base_dir base_dir joined_path
   then joined_path else joinpath base_dir joined_path) = joined_path.
Proof.
  cbn zeta.
  destruct (path_already_stars_with_base_dir base_dir subdirs_path) eqn:Hstarts.
  { by rewrite Hstarts. }
  destruct (path_already_stars_with_base_dir base_dir
              (joinpath base_dir subdirs_path)) eqn:Hjoined; [done|].
  unfold joinpath at 2 3.
  destruct (decide (root subdirs_path = "")) as [Hrel|Habs].
  - rewrite bool_decide_eq_true_2 by done.
    unfold path_already_stars_with_base_dir in Hjoined.
    destruct (decide (root base_dir ≠ "" ∨ parts base_dir ≠ [])) as [Hbase|Hdot].
    { by rewrite as_posix_joinpath_prefix in Hjoined. }
    assert (root base_dir = "" ∧ parts base_dir = []) as [Hroot Hparts].
    { split; apply dec_stable; tauto. }
    unfold joinpath. rewrite bool_decide_eq_true_2 by done. cbn [root parts].
    by rewrite Hparts.
  - rewrite bool_decide_eq_false_2 by done.
    unfold joinpath. by rewrite !bool_decide_eq_false_2.
Qed.

(** X18. Joining onto a base directory twice is joining once: when
    [_join] returns a path, giving that path to [_join] with the same base
    returns it unchanged. *)
Theorem join_is_idempotent (local_path remote_path appdir_path : PurePath)
    (base : string) (subdirs : Subdirs) (joined : string) :
  well_formed local_path → well_formed remote_path →
  well_formed appdir_path →
  _join local_path remote_path appdir_path base subdirs = inr joined →
  _join local_path remote_path appdir_path base (subdirs_string joined)
  = inr joined.
Proof.
  intros Hlocal Hremote Happdir. unfold _join.
  destruct (_get_base_dir local_path remote_path appdir_path base)
    as [e|base_dir] eqn:Hbase; [done|].
  assert (well_formed base_dir) as Hwf.
  { unfold _get_base_dir in Hbase.
    repeat (match type of Hbase with
            | (if ?b then _ else _) = _ => destruct b
            end); congruence. }
  cbn. intros [= <-].
  rewrite Path_as_posix.
  - by rewrite joined_path_is_fixed.
  - destruct (path_already_stars_with_base_dir _ _);
      [apply Path_well_formed|].
    apply joinpath_well_formed; [done|apply Path_well_formed].
Qed.

Lemma join_is_idempotent_witness :
  _join (Path "/data/project") (Path "/mnt/server/project") (Path "/home/user/.datashuttle/project")
    "local" (subdirs_names ["ephys"; "sub-001"])
  = inr "/data/project/ephys/sub-001"
  ∧ _join (Path "/data/project") (Path "/mnt/server/project") (Path "/home/user/.datashuttle/project")
      "local" (subdirs_string "/data/project/ephys/sub-001")
    = inr "/data/project/ephys/sub-001".
Proof.
  split; [reflexivity|].
  apply (join_is_idempotent _ _ _ "local" (subdirs_names ["ephys"; "sub-001"]));
    [apply Path_well_formed..|reflexivity].
Defined.

(** ** Transfers with rclone *)

Lemma join_spaced (x : string) (xs l : list string) :
  join " " ((x :: xs) ++ l) = join " " (x :: xs) +:+ spaced l.
Proof.
  revert x. induction xs as [|y xs IH]; intros x.
  - destruct l as [|z l]; [by rewrite string_app_empty_r|].
    change (join " " ([x] ++ z :: l)) with (x +:+ " " +:+ join " " ([z] ++ l)).
    change (join " " [x]) with x. f_equal.
    clear x. revert z. induction l as [|z' l IHl]; intros z.
    + change (" " +:+ z = " " +:+ z +:+ ""). by rewrite string_app_empty_r.
    + change (join " " ([z] ++ z' :: l))
        with (z +:+ " " +:+ join " " ([z'] ++ l)).
      change (spaced (z :: z' :: l)) with (" " +:+ z +:+ spaced (z' :: l)).
      rewrite <- IHl. reflexivity.
  - change (join " " ((x :: y :: xs) ++ l))
      with (x +:+ " " +:+ join " " ((y :: xs) ++ l)).
    rewrite IH.
    change (join " " (x :: y :: xs)) with (x +:+ " " +:+ join " " (y :: xs)).
    by rewrite !string_app_assoc.
Qed.

Ltac known_rclone_args :=
  repeat match goal with
         | |- context [rclone_args ?name] =>
             let arg := eval vm_compute in (rclone_args name) in
             change (rclone_args name) with arg
         end.

Ltac items_before xs l :=
  match xs with
  | l => constr:(@nil string)
  | ?x :: ?rest => let r := items_before rest l in constr:(x :: r)
  end.

Ltac before_include l :=
  match goal with
  | |- context [join " " ?xs] =>
      let front := items_before xs l in
      change xs with (front ++ l)%list
  end.

(** X19. With its four options present and a string for the verbosity,
    [transfer_data] runs one rclone copy command, piped, for an upload or
    a download. After the two locations come, in this order,
    --create-empty-src-dirs, the verbosity, --ignore-existing exactly when
    overwriting is off, --progress and --dry-run exactly when their
    options are on, and then the include list. *)
Theorem transfer_command_carries_the_options
    (local_filepath remote_filepath rclone_config_name : string)
    (upload_or_download : string) (include_list : list string)
    (rclone_options : Dict PyVal) (verbosity : string)
    (overwrite progress dry_run : PyVal) :
  upload_or_download = "upload" ∨ upload_or_download = "download" →
  getitem rclone_options "transfer_verbosity" = inr (PyStr verbosity) →
  getitem rclone_options "overwrite_old_files" = inr overwrite →
  getitem rclone_options "show_transfer_progress" = inr progress →
  getitem rclone_options "dry_run" = inr dry_run →
  transfer_data local_filepath remote_filepath rclone_config_name
    upload_or_download include_list rclone_options
  = inr {| run_command :=
             "rclone copy " +:+
             (if bool_decide (upload_or_download = "upload")
              then quote +:+ local_filepath +:+ quote +:+ " " +:+
                   quote +:+ rclone_config_name +:+ ":" +:+ remote_filepath
                   +:+ quote
              else quote +:+ rclone_config_name +:+ ":" +:+ remote_filepath
                   +:+ quote +:+ " " +:+
                   quote +:+ local_filepath +:+ quote +:+ " ")
             +:+ " --create-empty-src-dirs -" +:+ verbosity
             +:+ (if py_truthy overwrite then "" else " --ignore-existing")
             +:+ (if py_truthy progress then " --progress" else "")
             +:+ (if py_truthy dry_run then " --dry-run" else "")
             +:+ spaced include_list;
           run_piped := true |}.
Proof.
  intros Hdirection Hverbosity Hoverwrite Hprogress Hdry_run.
  unfold transfer_data, handle_rclone_arguments.
  known_rclone_args. cbn [r_bind app].
  rewrite Hverbosity. cbn [r_bind dash app].
  rewrite Hoverwrite. cbn [r_bind].
  destruct (py_truthy overwrite); cbn [negb r_bind app];
    rewrite Hprogress; cbn [r_bind];
    destruct (py_truthy progress); cbn [r_bind app];
    rewrite Hdry_run; cbn [r_bind];
    destruct (py_truthy dry_run); cbn [r_bind app];
    before_include include_list; rewrite join_spaced; cbn [join];
    destruct Hdirection as [-> | ->];
    cbn; unfold call_rclone; do 2 f_equal;
    rewrite ?bool_decide_eq_true_2, ?bool_decide_eq_false_2 by done;
    rewrite ?string_app_assoc; reflexivity.
Qed.

Lemma transfer_command_carries_the_options_witness :
  transfer_data "/data/project" "/mnt/server/project" "central_project_ssh"
    "upload" ["--include"; "sub-001/**"] sample_rclone_options
  = inr {| run_command :=
             "rclone copy " +:+ quote +:+ "/data/project" +:+ quote +:+ " "
             +:+ quote +:+ "central_project_ssh:/mnt/server/project" +:+ quote
             +:+ " --create-empty-src-dirs -vv --ignore-existing --dry-run --include sub-001/**";
           run_piped := true |}.
Proof.
  apply (transfer_command_carries_the_options "/data/project"
           "/mnt/server/project" "central_project_ssh" "upload"
           ["--include"; "sub-001/**"] sample_rclone_options "vv"
           (PyBool false) (PyBool false) (PyBool true));
    [by left|reflexivity..].
Defined.
